(** * flux-account-create-elastic-logs: a shallow embedding

    The script [src/cmd/flux-account-create-elastic-logs.py] fetches the
    inactive jobs of a Flux instance and rewrites each one as a nested
    dictionary that follows a common logging schema.

    The model:
    - [Py]: the Python values the script manipulates (what [json] decoding
      yields) and the built-in operations the script applies to them, with
      the exceptions they raise;
    - [Datetime]: [datetime.fromtimestamp(t, tz=utc).isoformat()];
    - [Exporter]: the functions of the script, statement by statement, and
      the run of [main] against the system it talks to.

    The proofs:
    - [PyFacts], [ExporterFacts]: lemmas on the operations and on the
      blocks of the record mapping;
    - [Fixtures]: sample jobs and a sample Flux instance;
    - [Properties], [Run]: the properties of the record mapping and of a
      run.

    Conventions of the model.  A [str] is the sequence of the bytes of its
    UTF-8 encoding, whose order is the order of the code points.  A float
    is an IEEE 754 binary64 number with one NaN.  Two values are never the
    same object, so [==] on lists and dicts compares the elements by value.
    Resources are unbounded: no operation fails for lack of memory below
    the limits that Python itself checks. *)

From Stdlib Require Import ZArith List String Ascii Bool Lia DecimalString.
From Stdlib Require Import Floats.SpecFloat Sorting.Permutation Sorting.Sorted.
Import ListNotations.

Local Open Scope string_scope.
Local Open Scope Z_scope.

#[local] Set Warnings "-register-all".

(* ===================================================================== *)
(** * Python values and built-in operations *)
(* ===================================================================== *)

Module Py.

(** The exceptions that the modelled operations can raise. *)
Inductive exn : Set :=
| KeyError | TypeError | ValueError | OverflowError | MemoryError
| OSError | AttributeError.

(** A computation that either returns or raises. *)
Inductive result (A : Type) : Type :=
| Ok (a : A)
| Raise (e : exn).
Arguments Ok {A} a.
Arguments Raise {A} e.

Definition bind {A B} (c : result A) (k : A -> result B) : result B :=
  match c with
  | Ok a => k a
  | Raise e => Raise e
  end.

Declare Scope py_scope.
Delimit Scope py_scope with py.
Notation "x <- c ;; k" := (bind c (fun x => k))
  (at level 61, c at next level, right associativity) : py_scope.
Local Open Scope py_scope.

(** A Python [float] is an IEEE 754 binary64 number. *)
Definition prec : Z := 53.
Definition emax : Z := 1024.
Definition float : Set := spec_float.

(** Values: what decoding a JSON document produces.  A [dict] keeps its
    keys in insertion order, so it is an association list; JSON keys are
    strings. *)
Inductive value : Type :=
| VNone
| VBool (b : bool)
| VInt (z : Z)
| VFloat (f : float)
| VStr (s : string)
| VList (l : list value)
| VDict (d : list (string * value)).

Definition dict : Type := list (string * value).

(** ** Dictionaries *)

Fixpoint dict_get {A} (d : list (string * A)) (k : string) : option A :=
  match d with
  | [] => None
  | (k', v) :: d' => if String.eqb k' k then Some v else dict_get d' k
  end.

(** [d[k] = v] on the association list: an existing key keeps its place. *)
Fixpoint dict_set {A} (d : list (string * A)) (k : string) (v : A)
  : list (string * A) :=
  match d with
  | [] => [(k, v)]
  | (k', v') :: d' =>
      if String.eqb k' k then (k', v) :: d' else (k', v') :: dict_set d' k v
  end.

Definition is_none (v : value) : bool :=
  match v with VNone => true | _ => false end.

(** [d.get(k, dflt)] on a dictionary. *)
Definition get_default (d : dict) (k : string) (dflt : value) : value :=
  match dict_get d k with
  | Some v => v
  | None => dflt
  end.

(** [d.get(k)]: [None] when the key is missing. *)
Definition get (d : dict) (k : string) : value := get_default d k VNone.

(** [v.get(k, dflt)] on an arbitrary value: only a dict has the method. *)
Definition get_method (v : value) (k : string) (dflt : value) : result value :=
  match v with
  | VDict d => Ok (get_default d k dflt)
  | _ => Raise AttributeError
  end.

(** [v[k]] with a string key. *)
Definition getitem (v : value) (k : string) : result value :=
  match v with
  | VDict d =>
      match dict_get d k with
      | Some x => Ok x
      | None => Raise KeyError
      end
  | _ => Raise TypeError
  end.

(** [v[k] = x] with a string key. *)
Definition setitem (v : value) (k : string) (x : value) : result value :=
  match v with
  | VDict d => Ok (VDict (dict_set d k x))
  | _ => Raise TypeError
  end.

(** [r[k1]...[kn] = x]: the containers are fetched with [getitem], the
    innermost one is updated in place.  The script never holds a second
    reference to an inner dictionary, so writing the updated container back
    is the same as mutating it. *)
Fixpoint set_path (r : value) (p : list string) (x : value) : result value :=
  match p with
  | [] => Ok x
  | [k] => setitem r k x
  | k :: p' =>
      sub <- getitem r k ;;
      sub' <- set_path sub p' x ;;
      setitem r k sub'
  end.

(** Reading [r[k1]...[kn]] when every container and key exists. *)
Fixpoint lookup (r : value) (p : list string) : option value :=
  match p with
  | [] => Some r
  | k :: p' =>
      match r with
      | VDict d =>
          match dict_get d k with
          | Some sub => lookup sub p'
          | None => None
          end
      | _ => None
      end
  end.

(** ** Numbers *)

Inductive num : Set :=
| NInt (z : Z)
| NFloat (f : float).

(** [bool] is a subclass of [int]. *)
Definition as_num (v : value) : option num :=
  match v with
  | VBool b => Some (NInt (if b then 1 else 0))
  | VInt z => Some (NInt z)
  | VFloat f => Some (NFloat f)
  | _ => None
  end.

Definition as_int (v : value) : option Z :=
  match v with
  | VBool b => Some (if b then 1 else 0)
  | VInt z => Some z
  | _ => None
  end.

(** [float(z)] for an [int]: correctly rounded, [OverflowError] when the
    result does not fit. *)
Definition float_of_Z (z : Z) : result float :=
  match binary_normalize prec emax z 0 false with
  | S754_infinity _ => Raise OverflowError
  | f => Ok f
  end.

Definition to_float (n : num) : result float :=
  match n with
  | NInt z => float_of_Z z
  | NFloat f => Ok f
  end.

Definition arith (fz : Z -> Z -> Z) (ff : float -> float -> float)
  (a b : num) : result value :=
  match a, b with
  | NInt x, NInt y => Ok (VInt (fz x y))
  | _, _ =>
      x <- to_float a ;;
      y <- to_float b ;;
      Ok (VFloat (ff x y))
  end.

(** [a - b] *)
Definition sub (a b : value) : result value :=
  match as_num a, as_num b with
  | Some x, Some y => arith Z.sub (SFsub prec emax) x y
  | _, _ => Raise TypeError
  end.

Definition ssize_max : Z := 2 ^ 63 - 1.

Fixpoint repeat_string (n : nat) (s : string) : string :=
  match n with
  | O => ""
  | S n' => s ++ repeat_string n' s
  end.

Fixpoint repeat_list {A} (n : nat) (l : list A) : list A :=
  match n with
  | O => []
  | S n' => l ++ repeat_list n' l
  end.

(** [seq * n] for a string or a list: the count must fit an index, and so
    must the length of the result.  An allocation within these limits is
    taken to succeed. *)
Definition repeat_seq (seq : value) (n : Z) : result value :=
  if (n <? - ssize_max - 1) || (ssize_max <? n) then Raise OverflowError
  else
    match seq with
    | VStr s =>
        if ssize_max <? Z.of_nat (String.length s) * Z.max n 0
        then Raise OverflowError
        else Ok (VStr (repeat_string (Z.to_nat n) s))
    | VList l =>
        if ssize_max <? Z.of_nat (List.length l) * Z.max n 0
        then Raise MemoryError
        else Ok (VList (repeat_list (Z.to_nat n) l))
    | _ => Raise TypeError
    end.

Definition is_seq (v : value) : bool :=
  match v with VStr _ | VList _ => true | _ => false end.

(** [a * b]: numbers multiply, a sequence is repeated by an [int]. *)
Definition mul (a b : value) : result value :=
  match as_num a, as_num b with
  | Some x, Some y => arith Z.mul (SFmul prec emax) x y
  | _, _ =>
      match as_int a, as_int b with
      | _, Some n => if is_seq a then repeat_seq a n else Raise TypeError
      | Some n, _ => if is_seq b then repeat_seq b n else Raise TypeError
      | None, None => Raise TypeError
      end
  end.

(** The integer nearest to [n / d] ([0 < d]), ties to the even one. *)
Definition div_half_even (n d : Z) : Z :=
  let q := n / d in
  let r := n mod d in
  match 2 * r ?= d with
  | Lt => q
  | Gt => q + 1
  | Eq => if Z.even q then q else q + 1
  end.

(** [round(f, 1)] on a float: the decimal with one fractional digit nearest
    to the exact value of [f] (ties to even), then the float nearest to
    that decimal.  Zeros, infinities and NaN round to themselves. *)
Definition round1_float (f : float) : float :=
  match f with
  | S754_finite s m e =>
      let tenths :=
        if 0 <=? e then Z.pos m * 2 ^ e * 10
        else div_half_even (Z.pos m * 10) (2 ^ (- e)) in
      match tenths with
      | Z.pos t => SFdiv prec emax (S754_finite s t 0) (S754_finite false 10 0)
      | _ => S754_zero s
      end
  | _ => f
  end.

(** [round(a, 1)]: an [int] (or [bool]) gives the [int] itself. *)
Definition round1 (a : value) : result value :=
  match as_num a with
  | Some (NInt z) => Ok (VInt z)
  | Some (NFloat f) => Ok (VFloat (round1_float f))
  | None => Raise TypeError
  end.

(** ** Comparisons *)

(** The order between an [int] and a [float] is the order of their exact
    values; [None] when the float is a NaN. *)
Definition compare_Z_float (z : Z) (f : float) : option comparison :=
  match f with
  | S754_nan => None
  | S754_infinity s => Some (if s then Gt else Lt)
  | S754_zero _ => Some (z ?= 0)
  | S754_finite s m e =>
      let fm := if s then Z.neg m else Z.pos m in
      Some (if 0 <=? e then z ?= fm * 2 ^ e else z * 2 ^ (- e) ?= fm)
  end.

Definition compare_num (a b : num) : option comparison :=
  match a, b with
  | NInt x, NInt y => Some (x ?= y)
  | NInt x, NFloat g => compare_Z_float x g
  | NFloat f, NInt y => option_map CompOpp (compare_Z_float y f)
  | NFloat f, NFloat g => SFcompare f g
  end.

Definition is_cmp (c : comparison) (o : option comparison) : bool :=
  match o, c with
  | Some Eq, Eq | Some Lt, Lt | Some Gt, Gt => true
  | _, _ => false
  end.

(** [a == b].  Values of different kinds are unequal, numbers compare by
    value, dictionaries regardless of the order of their keys. *)
Fixpoint py_eq (a b : value) {struct a} : bool :=
  match a, b with
  | VNone, VNone => true
  | VStr s, VStr t => String.eqb s t
  | VList l, VList m =>
      (fix eq_list (l m : list value) {struct l} : bool :=
         match l, m with
         | [], [] => true
         | x :: l', y :: m' => py_eq x y && eq_list l' m'
         | _, _ => false
         end) l m
  | VDict d, VDict e =>
      Nat.eqb (List.length d) (List.length e)
      && (fix eq_items (d : list (string * value)) : bool :=
            match d with
            | [] => true
            | (k, v) :: d' =>
                match dict_get e k with
                | Some w => py_eq v w
                | None => false
                end && eq_items d'
            end) d
  | _, _ =>
      match as_num a, as_num b with
      | Some x, Some y => is_cmp Eq (compare_num x y)
      | _, _ => false
      end
  end.

(** [a < b].  Numbers and strings are ordered among themselves, lists
    lexicographically; every other pairing is a [TypeError]. *)
Fixpoint py_lt (a b : value) {struct a} : result bool :=
  match a, b with
  | VStr s, VStr t => Ok (String.ltb s t)
  | VList l, VList m =>
      (fix lt_list (l m : list value) {struct l} : result bool :=
         match l, m with
         | [], [] => Ok false
         | [], _ :: _ => Ok true
         | _ :: _, [] => Ok false
         | x :: l', y :: m' => if py_eq x y then lt_list l' m' else py_lt x y
         end) l m
  | _, _ =>
      match as_num a, as_num b with
      | Some x, Some y => Ok (is_cmp Lt (compare_num x y))
      | _, _ => Raise TypeError
      end
  end.

(** ** Sorting *)

(** [sorted(xs, key=...)] once the keys are computed: a stable sort that
    only asks whether a later element is smaller than an earlier one, and
    raises what a comparison raises.  Every element but the first meets at
    least one other element in a comparison. *)
Fixpoint insert_by_key {A} (kx : value) (x : A) (l : list (value * A))
  : result (list (value * A)) :=
  match l with
  | [] => Ok [(kx, x)]
  | (ky, y) :: l' =>
      b <- py_lt kx ky ;;
      if b then Ok ((kx, x) :: (ky, y) :: l')
      else
        l'' <- insert_by_key kx x l' ;;
        Ok ((ky, y) :: l'')
  end.

Fixpoint sort_keyed {A} (acc : list (value * A)) (l : list (value * A))
  : result (list (value * A)) :=
  match l with
  | [] => Ok acc
  | (k, x) :: l' =>
      acc' <- insert_by_key k x acc ;;
      sort_keyed acc' l'
  end.

Fixpoint map_result {A B} (f : A -> result B) (l : list A) : result (list B) :=
  match l with
  | [] => Ok []
  | x :: l' =>
      y <- f x ;;
      ys <- map_result f l' ;;
      Ok (y :: ys)
  end.

Definition sorted {A} (key : A -> result value) (l : list A) : result (list A) :=
  keys <- map_result key l ;;
  s <- sort_keyed [] (combine keys l) ;;
  Ok (map snd s).

(** ** Text of an integer *)

(** [str(z)] *)
Definition str_of_Z (z : Z) : string := NilZero.string_of_int (Z.to_int z).

End Py.

(* ===================================================================== *)
(** * Timestamps as ISO 8601 text *)
(* ===================================================================== *)

Module Datetime.
Import Py.
Local Open Scope py_scope.

Record datetime : Set := mk_datetime {
  year : Z; month : Z; day : Z;
  hour : Z; minute : Z; second : Z; microsecond : Z
}.

(** The proleptic Gregorian date of a day counted from 1970-01-01. *)
Definition civil_from_days (days : Z) : Z * Z * Z :=
  let z := days + 719468 in
  let era := z / 146097 in
  let doe := z - era * 146097 in
  let yoe := (doe - doe / 1460 + doe / 36524 - doe / 146096) / 365 in
  let doy := doe - (365 * yoe + yoe / 4 - yoe / 100) in
  let mp := (5 * doy + 2) / 153 in
  let d := doy - (153 * mp + 2) / 5 + 1 in
  let m := if mp <? 10 then mp + 3 else mp - 9 in
  let y := yoe + era * 400 in
  (if m <=? 2 then y + 1 else y, m, d).

Definition time_t_min : Z := - 2 ^ 63.
Definition time_t_max : Z := 2 ^ 63 - 1.

(** The integer nearest to a finite float, ties to even. *)
Definition round_half_even (f : float) : Z :=
  match f with
  | S754_finite s m e =>
      let n := if 0 <=? e then Z.pos m * 2 ^ e
               else div_half_even (Z.pos m) (2 ^ (- e)) in
      if s then - n else n
  | _ => 0
  end.

(** C's [modf]: the integral part (towards zero) and the fraction, which
    carries the sign of the argument and is exact. *)
Definition modf (f : float) : Z * float :=
  match f with
  | S754_finite s m e =>
      if 0 <=? e then ((if s then -1 else 1) * (Z.pos m * 2 ^ e), S754_zero s)
      else
        let ip := Z.pos m / 2 ^ (- e) in
        let fr := Z.pos m mod 2 ^ (- e) in
        ((if s then - ip else ip),
         binary_normalize prec emax (if s then - fr else fr) e s)
  | _ => (0, f)
  end.

(** Seconds and microseconds of a timestamp object.  A float is split by
    [modf], its fraction scaled by [1e6] in float arithmetic and rounded
    half to even; an [int] must fit [time_t]. *)
Definition to_timeval (t : value) : result (Z * Z) :=
  match t with
  | VFloat S754_nan => Raise ValueError
  | VFloat (S754_infinity _) => Raise OverflowError
  | VFloat f =>
      let '(intpart, frac) := modf f in
      let scaled := SFmul prec emax frac (binary_normalize prec emax 1000000 0 false) in
      let us := round_half_even scaled in
      let '(intpart, us) :=
        if 1000000 <=? us then (intpart + 1, us - 1000000)
        else if us <? 0 then (intpart - 1, us + 1000000)
        else (intpart, us) in
      if (intpart <? time_t_min) || (time_t_max <? intpart)
      then Raise OverflowError
      else Ok (intpart, us)
  | _ =>
      match as_int t with
      | Some z =>
          if (z <? time_t_min) || (time_t_max <? z) then Raise OverflowError
          else Ok (z, 0)
      | None => Raise TypeError
      end
  end.

(** [datetime.fromtimestamp(t, tz=timezone.utc)]: the C library refuses a
    year that does not fit [int] ([OSError]), [datetime] a year outside
    1..9999 ([ValueError]). *)
Definition fromtimestamp_utc (t : value) : result datetime :=
  tv <- to_timeval t ;;
  let '(secs, us) := tv in
  let days := secs / 86400 in
  let rem := secs mod 86400 in
  let '(y, m, d) := civil_from_days days in
  if (y - 1900 <? - 2 ^ 31) || (2 ^ 31 - 1 <? y - 1900) then Raise OSError
  else if (y <? 1) || (9999 <? y) then Raise ValueError
  else Ok (mk_datetime y m d (rem / 3600) (rem mod 3600 / 60) (rem mod 60) us).

Fixpoint zeros (n : nat) : string :=
  match n with
  | O => ""
  | S n' => String "0" (zeros n')
  end.

(** [%0<width>d] for a non-negative number. *)
Definition pad (width : nat) (z : Z) : string :=
  let s := str_of_Z z in
  zeros (width - String.length s) ++ s.

(** [isoformat()] of an aware datetime in UTC. *)
Definition isoformat (dt : datetime) : string :=
  pad 4 (year dt) ++ "-" ++ pad 2 (month dt) ++ "-" ++ pad 2 (day dt)
  ++ "T" ++ pad 2 (hour dt) ++ ":" ++ pad 2 (minute dt) ++ ":"
  ++ pad 2 (second dt)
  ++ (if microsecond dt =? 0 then "" else "." ++ pad 6 (microsecond dt))
  ++ "+00:00".

(** [datetime.datetime.fromtimestamp(t, tz=datetime.timezone.utc).isoformat()] *)
Definition iso_utc (t : value) : result value :=
  dt <- fromtimestamp_utc t ;;
  Ok (VStr (isoformat dt)).

End Datetime.

(* ===================================================================== *)
(** * The script *)
(* ===================================================================== *)

Module Exporter.
Import Py.
Local Open Scope py_scope.

(** ** The system the script runs on *)

(** An entry of the password database, as far as the script reads it. *)
Record passwd : Set := mk_passwd { pw_name : string; pw_gid : Z }.

(** The user and group databases behind [pwd] and [grp], and [str()] on the
    values whose text this development does not spell out (a float, a list,
    a dict). *)
Record Env : Type := mk_env {
  passwd_db : Z -> option passwd;
  group_db : Z -> option string;
  repr : value -> string
}.

Definition id_t_min : Z := -1.
Definition id_t_max : Z := 2 ^ 32 - 1.

(** [pwd.getpwuid(uid)]: a [TypeError] unless [uid] is an integer, a
    [KeyError] when no entry is found, also for a number that is no uid. *)
Definition pwd_getpwuid (env : Env) (uid : value) : result passwd :=
  match as_int uid with
  | None => Raise TypeError
  | Some z =>
      if (z <? id_t_min) || (id_t_max <? z) then Raise KeyError
      else
        match passwd_db env z with
        | Some p => Ok p
        | None => Raise KeyError
        end
  end.

(** [grp.getgrgid(gid)]: as above, but a number that is no gid is an
    [OverflowError]. *)
Definition grp_getgrgid (env : Env) (gid : value) : result string :=
  match as_int gid with
  | None => Raise TypeError
  | Some z =>
      if (z <? id_t_min) || (id_t_max <? z) then Raise OverflowError
      else
        match group_db env z with
        | Some n => Ok n
        | None => Raise KeyError
        end
  end.

(** [str(v)] *)
Definition str (env : Env) (v : value) : string :=
  match v with
  | VNone => "None"
  | VBool true => "True"
  | VBool false => "False"
  | VInt z => str_of_Z z
  | VStr s => s
  | _ => repr env v
  end.

(** [try: body except (KeyError, ValueError, TypeError): fallback] *)
Definition try_lookup {A} (body : result A) (fallback : A) : result A :=
  match body with
  | Raise KeyError | Raise ValueError | Raise TypeError => Ok fallback
  | r => r
  end.

(** ** Constants *)

Definition FLUX_TIMESTAMP_FILE : string := "/var/log/flux/last_completed".

Definition OUTCOME_CONVERSION : list (Z * string) :=
  [(1, "COMPLETED"); (2, "FAILED"); (4, "CANCELLED"); (8, "TIMEOUT")].

(** [d[k]] on a dictionary keyed by integers: the key is hashed first, which
    a list or a dict refuses, and is then found by equality. *)
Fixpoint find_int_key (d : list (Z * string)) (k : value) : option string :=
  match d with
  | [] => None
  | (z, s) :: d' => if py_eq (VInt z) k then Some s else find_int_key d' k
  end.

Definition hashable (v : value) : bool :=
  match v with VList _ | VDict _ => false | _ => true end.

Definition getitem_int_keys (d : list (Z * string)) (k : value) : result value :=
  if hashable k then
    match find_int_key d k with
    | Some s => Ok (VStr s)
    | None => Raise KeyError
    end
  else Raise TypeError.

(** [d.get(k, dflt)] on a dictionary keyed by strings, for any key [k]. *)
Definition get_any_key (d : dict) (k : value) (dflt : value) : result value :=
  match k with
  | VStr s => Ok (get_default d s dflt)
  | VList _ | VDict _ => Raise TypeError
  | _ => Ok dflt
  end.

(** ** Identity lookups *)

Definition get_username (env : Env) (uid : value) : result value :=
  try_lookup (p <- pwd_getpwuid env uid ;; Ok (VStr (pw_name p)))
             (VStr (str env uid)).

Definition get_gid (env : Env) (uid : value) : result value :=
  try_lookup (p <- pwd_getpwuid env uid ;; Ok (VInt (pw_gid p)))
             (VStr "").

Definition get_groupname (env : Env) (gid : value) : result value :=
  try_lookup (n <- grp_getgrgid env gid ;; Ok (VStr n))
             (VStr "").

(** ** create_job_dicts *)

Definition not_none (v : value) : bool := negb (is_none v).

(** [rec[k1][k2]] *)
Definition getitem2 (r : value) (k1 k2 : string) : result value :=
  sub <- getitem r k1 ;;
  getitem sub k2.

(** The record before any field of the job is read (lines 156-171). *)
Definition new_record : result value :=
  let rec := VDict [] in
  rec <- setitem rec "event" (VDict []) ;;
  rec <- setitem rec "job" (VDict []) ;;
  rec <- set_path rec ["job"; "node"] (VDict []) ;;
  rec <- set_path rec ["job"; "task"] (VDict []) ;;
  rec <- set_path rec ["job"; "proc"] (VDict []) ;;
  rec <- setitem rec "user" (VDict []) ;;
  rec <- setitem rec "group" (VDict []) ;;
  rec <- set_path rec ["event"; "dataset"] (VStr "flux.joblog") ;;
  rec <- setitem rec "schema" (VDict []) ;;
  (* the float 2.2 *)
  rec <- set_path rec ["schema"; "version_number"]
           (VFloat (S754_finite false 4953959590107546 (-51))) ;;
  set_path rec ["job"; "node"; "list"] (VInt (-1)).

(** Convert flux keys to defined common schema keys (lines 174-195). *)
Definition copy_fields (job : dict) (rec : value) : result value :=
  rec <- set_path rec ["job"; "id"] (get job "id") ;;
  rec <- set_path rec ["user"; "id"] (get job "userid") ;;
  rec <- set_path rec ["job"; "name"] (get job "name") ;;
  rec <- set_path rec ["job"; "priority"] (get job "priority") ;;
  rec <- set_path rec ["job"; "state"] (get job "state") ;;
  rec <- set_path rec ["job"; "bank"] (get job "bank") ;;
  rec <- set_path rec ["job"; "queue"] (get job "queue") ;;
  rec <- set_path rec ["job"; "project"] (get job "project") ;;
  rec <- set_path rec ["job"; "jobspec"] (get job "jobspec") ;;
  rec <- set_path rec ["job"; "eventlog"] (get job "eventlog") ;;
  rec <- set_path rec ["job"; "requested_duration"] (get job "duration") ;;
  rec <- set_path rec ["job"; "node"; "list"] (get job "nodelist") ;;
  rec <- set_path rec ["job"; "node"; "count"] (get job "nnodes") ;;
  rec <- set_path rec ["job"; "task"; "count"] (get job "ntasks") ;;
  rec <- set_path rec ["job"; "cwd"] (get job "cwd") ;;
  rec <- set_path rec ["job"; "urgency"] (get job "urgency") ;;
  rec <- set_path rec ["job"; "success"] (get job "success") ;;
  rec <- set_path rec ["job"; "exit_code"] (get job "waitstatus") ;;
  rec <- set_path rec ["job"; "t_submit"] (get job "t_submit") ;;
  rec <- set_path rec ["job"; "t_run"] (get job "t_run") ;;
  rec <- set_path rec ["job"; "t_inactive"] (get job "t_inactive") ;;
  set_path rec ["job"; "t_cleanup"] (get job "t_cleanup").

(** Convert the outcome code to a text value (lines 197-199). *)
Definition set_outcome (job : dict) (rec : value) : result value :=
  if not_none (get job "result") then
    outcome <- getitem_int_keys OUTCOME_CONVERSION (get job "result") ;;
    set_path rec ["event"; "outcome"] outcome
  else Ok rec.

(** Place the max timelimit of the queue in the record (lines 201-205). *)
Definition set_queue_maxtimelimit (queue_timelimits : dict) (rec : value)
  : result value :=
  j <- get_method rec "job" (VDict []) ;;
  q <- get_method j "queue" VNone ;;
  if not_none q then
    queue <- getitem2 rec "job" "queue" ;;
    limit <- get_any_key queue_timelimits queue (VStr "UNKNOWN") ;;
    set_path rec ["job"; "queue_maxtimelimit"] limit
  else Ok rec.

(** Add username, gid, groupname (lines 207-211). *)
Definition set_identity (env : Env) (rec : value) : result value :=
  u <- get_method rec "user" (VDict []) ;;
  uid <- get_method u "id" VNone ;;
  if not_none uid then
    uid <- getitem2 rec "user" "id" ;;
    name <- get_username env uid ;;
    rec <- set_path rec ["user"; "name"] name ;;
    uid <- getitem2 rec "user" "id" ;;
    gid <- get_gid env uid ;;
    rec <- set_path rec ["group"; "id"] gid ;;
    gid <- getitem2 rec "group" "id" ;;
    groupname <- get_groupname env gid ;;
    set_path rec ["group"; "name"] groupname
  else Ok rec.

(** Convert timestamps to ISO 8601 (lines 214-231). *)
Definition set_times (job : dict) (rec : value) : result value :=
  rec <- (if not_none (get job "t_submit") then
            t <- getitem (VDict job) "t_submit" ;;
            rec <- set_path rec ["job"; "submittime_epoch"] t ;;
            t <- getitem (VDict job) "t_submit" ;;
            iso <- Datetime.iso_utc t ;;
            set_path rec ["job"; "submittime"] iso
          else Ok rec) ;;
  rec <- (if not_none (get job "t_run") then
            t <- getitem (VDict job) "t_run" ;;
            iso <- Datetime.iso_utc t ;;
            set_path rec ["event"; "start"] iso
          else Ok rec) ;;
  rec <- (if not_none (get job "t_inactive") then
            t <- getitem (VDict job) "t_inactive" ;;
            iso <- Datetime.iso_utc t ;;
            set_path rec ["event"; "end"] iso
          else Ok rec) ;;
  if not_none (get job "expiration") then
    iso <- Datetime.iso_utc (get job "expiration") ;;
    set_path rec ["job"; "timelimit"] iso
  else Ok rec.

(** [job.get("t_run") - (job.get("t_run") - job.get("t_depend"))] (line 235) *)
Definition t_eligible (job : dict) : result value :=
  d <- sub (get job "t_run") (get job "t_depend") ;;
  sub (get job "t_run") d.

(** The time the job became eligible and the time it spent in the queue
    (lines 233-240). *)
Definition set_eligible (job : dict) (rec : value) : result value :=
  if not_none (get job "t_depend") && not_none (get job "t_run") then
    t_eligible <- t_eligible job ;;
    iso <- Datetime.iso_utc t_eligible ;;
    rec <- set_path rec ["job"; "eligibletime"] iso ;;
    w <- sub (get job "t_run") t_eligible ;;
    queue_time <- round1 w ;;
    set_path rec ["job"; "queue_time"] queue_time
  else Ok rec.

(** The actual execution time (lines 242-247). *)
Definition set_duration (job : dict) (rec : value) : result value :=
  if not_none (get job "t_inactive") && not_none (get job "t_run") then
    d <- sub (get job "t_inactive") (get job "t_run") ;;
    secs <- round1 d ;;
    rec <- set_path rec ["event"; "duration_seconds"] secs ;;
    secs <- getitem2 rec "event" "duration_seconds" ;;
    ns <- mul secs (VInt (10 ^ 9)) ;;
    set_path rec ["event"; "duration"] ns
  else Ok rec.

(** Number of processes * number of nodes (lines 249-251). *)
Definition set_proc_count (job : dict) (rec : value) : result value :=
  if not_none (get job "nnodes") && not_none (get job "ntasks") then
    n <- mul (get job "nnodes") (get job "ntasks") ;;
    set_path rec ["job"; "proc"; "count"] n
  else Ok rec.

(** The exception fields (lines 253-260). *)
Definition set_exception (job : dict) (rec : value) : result value :=
  if not_none (get job "exception_occurred")
     && py_eq (get job "exception_occurred") (VBool true) then
    rec <- (if not_none (get job "exception_type") then
              set_path rec ["job"; "exception_type"] (get job "exception_type")
            else Ok rec) ;;
    if not_none (get job "exception_note") then
      set_path rec ["job"; "exception_note"] (get job "exception_note")
    else Ok rec
  else Ok rec.

(** The body of the loop over the jobs (lines 155-263). *)
Definition job_record (env : Env) (queue_timelimits : dict) (job : dict)
  : result value :=
  rec <- new_record ;;
  rec <- copy_fields job rec ;;
  rec <- set_outcome job rec ;;
  rec <- set_queue_maxtimelimit queue_timelimits rec ;;
  rec <- set_identity env rec ;;
  rec <- set_times job rec ;;
  rec <- set_eligible job rec ;;
  rec <- set_duration job rec ;;
  rec <- set_proc_count job rec ;;
  rec <- set_exception job rec ;;
  set_path rec ["job"; "scheduler"] (VStr "flux").

(** [lambda x: x.get("job", {}).get("submittime_epoch", "0.0")] *)
Definition sort_key (x : value) : result value :=
  j <- get_method x "job" (VDict []) ;;
  get_method j "submittime_epoch" (VStr "0.0").

Definition create_job_dicts (env : Env) (queue_timelimits : dict)
  (jobs : list dict) : result (list value) :=
  job_dicts <- map_result (job_record env queue_timelimits) jobs ;;
  sorted sort_key job_dicts.

(** ** The run of the script *)

(** What a run does to the outside, in order. *)
Inductive event : Type :=
| Syslog (msg : string)            (* syslog.syslog(syslog.LOG_ERR, msg) *)
| Stderr (line : string)           (* print(line, file=sys.stderr) *)
| Stdout (rec : value)             (* print(f"job: {rec}") *)
| JobListInactive (since : value). (* job_list_inactive(handle, since=since,
                                      max_entries=0) *)

(** How a piece of the script ends: it returns, it calls [sys.exit], or an
    exception leaves it. *)
Inductive outcome (A : Type) : Type :=
| Returns (a : A)
| Exits (status : Z)
| Raises (e : exn).
Arguments Returns {A} a.
Arguments Exits {A} status.
Arguments Raises {A} e.

Definition proc (A : Type) : Type := list event * outcome A.

Definition ret {A} (a : A) : proc A := ([], Returns a).
Definition emit (e : event) : proc unit := ([e], Returns tt).
Definition sys_exit {A} (status : Z) : proc A := ([], Exits status).
Definition lift {A} (r : result A) : proc A :=
  match r with
  | Ok a => ([], Returns a)
  | Raise e => ([], Raises e)
  end.

Definition pbind {A B} (c : proc A) (k : A -> proc B) : proc B :=
  match c with
  | (tr, Returns a) => let '(tr', o) := k a in ((tr ++ tr')%list, o)
  | (tr, Exits n) => (tr, Exits n)
  | (tr, Raises e) => (tr, Raises e)
  end.

Declare Scope proc_scope.
Delimit Scope proc_scope with proc.
Notation "x <~ c ;; k" := (pbind c (fun x => k))
  (at level 61, c at next level, right associativity) : proc_scope.
Notation "c ;;; k" := (pbind c (fun _ => k))
  (at level 61, right associativity) : proc_scope.
Local Open Scope proc_scope.

Fixpoint for_each {A B} (f : A -> proc B) (l : list A) : proc (list B) :=
  match l with
  | [] => ret []
  | x :: l' =>
      y <~ f x ;;
      ys <~ for_each f l' ;;
      ret (y :: ys)
  end.

Definition trace {A} (p : proc A) : list event := fst p.
Definition result_of {A} (p : proc A) : outcome A := snd p.

(** Reading the timestamp file: [open] fails with [FileNotFoundError], the
    text cannot be decoded (a [ValueError]), another exception, or the
    text. *)
Inductive file_read : Type :=
| FileNotFound
| Undecodable
| ReadError (msg : string)
| Content (text : string).

(** The world of one run. *)
Record World : Type := mk_world {
  env : Env;
  (** [flux.Flux()]: [None] when the handle is obtained, else the text of
      the exception *)
  connect : option string;
  (** [open(FLUX_TIMESTAMP_FILE, "r")] and [fp.read()] *)
  timestamp_file : file_read;
  (** [float(text.strip())]: [None] for a [ValueError] *)
  float_of_text : string -> option float;
  (** [handle.rpc("config.get").get()]: [None] for an [EnvironmentError] *)
  config_get : option value;
  (** [rpc_handle.get_jobs()] of the query since a timestamp: the jobs, or
      the [strerror] of an [EnvironmentError] *)
  inactive_jobs : value -> string + list dict;
  (** [flux.job.job_kvs_lookup(handle, id, keys=["jobspec", "eventlog"],
      decode=True)] *)
  job_kvs_lookup : value -> result value
}.

(** [bool(v)] *)
Definition truthy (v : value) : bool :=
  match v with
  | VNone => false
  | VBool b => b
  | VInt z => negb (z =? 0)
  | VFloat (S754_zero _) => false
  | VFloat _ => true
  | VStr s => negb (String.eqb s "")
  | VList l => match l with [] => false | _ => true end
  | VDict d => match d with [] => false | _ => true end
  end.

Definition get_jobs (w : World) (since : value) : proc (list dict) :=
  match inactive_jobs w since with
  | inr jobs => ret jobs
  | inl strerror =>
      emit (Stderr ("rpc: " ++ strerror)) ;;;
      sys_exit 1
  end.

(** The loop over [queue_info.items()] (lines 105-108). *)
Fixpoint queue_limits (items : dict) (queue_timelimits : dict) : result dict :=
  match items with
  | [] => Ok queue_timelimits
  | (queue, details) :: items' =>
      (p <- get_method details "policy" (VDict []) ;;
       l <- get_method p "limits" (VDict []) ;;
       d <- get_method l "duration" (VStr "UNKNOWN") ;;
       queue_limits items' (dict_set queue_timelimits queue d))%py
  end.

(** The table of the queue limits (lines 104-108); only a dict has
    [items()]. *)
Definition set_queue_limits (queue_info : value) (queue_timelimits : dict)
  : result dict :=
  if truthy queue_info then
    match queue_info with
    | VDict items => queue_limits items queue_timelimits
    | _ => Raise AttributeError
    end
  else Ok queue_timelimits.

(** The body of the loop that attaches jobspec and eventlog to a job
    (lines 115-138).  Nothing in the guarded block raises the
    [JSONDecodeError] that its handler waits for. *)
Definition enrich (w : World) (job : dict) : result dict :=
  (id <- getitem (VDict job) "id" ;;
   job_data <- job_kvs_lookup w id ;;
   has_jobspec <- (if not_none job_data then
                     j <- get_method job_data "jobspec" VNone ;;
                     Ok (not_none j)
                   else Ok false) ;;
   job <- (if has_jobspec : bool then
             jobspec <- getitem job_data "jobspec" ;;
             let job := dict_set job "jobspec" jobspec in
             a <- get_method jobspec "attributes" (VDict []) ;;
             s <- get_method a "system" (VDict []) ;;
             d <- get_method s "duration" (VDict []) ;;
             let job := dict_set job "duration" d in
             a <- get_method jobspec "attributes" (VDict []) ;;
             accounting_attributes <- get_method a "system" (VDict []) ;;
             bank <- get_method accounting_attributes "bank" VNone ;;
             let job := dict_set job "bank" bank in
             queue <- get_method accounting_attributes "queue" VNone ;;
             let job := dict_set job "queue" queue in
             project <- get_method accounting_attributes "project" VNone ;;
             Ok (dict_set job "project" project)
           else Ok job) ;;
   has_eventlog <- (if not_none job_data then
                      e <- get_method job_data "eventlog" VNone ;;
                      Ok (not_none e)
                    else Ok false) ;;
   if has_eventlog : bool then
     e <- get_method job_data "eventlog" VNone ;;
     Ok (dict_set job "eventlog" e)
   else Ok job)%py.

(** The timestamp that the query uses when none is given (lines 77-94). *)
Definition read_timestamp (w : World) : proc value :=
  match timestamp_file w with
  | Content text =>
      match float_of_text w text with
      | Some f => ret (VFloat f)
      | None =>
          emit (Syslog "could not extract timestamp from Flux job log file") ;;;
          sys_exit 1
      end
  | FileNotFound => ret (VFloat (S754_zero false))
  | Undecodable =>
      emit (Syslog "could not extract timestamp from Flux job log file") ;;;
      sys_exit 1
  | ReadError msg =>
      emit (Syslog ("an unexpected error occurred: " ++ msg)) ;;;
      sys_exit 1
  end.

(** [fetch_new_jobs]; the global [queue_timelimits] is passed in and
    returned with the jobs. *)
Definition fetch_new_jobs (w : World) (queue_timelimits : dict)
  (last_timestamp : value) : proc (dict * list dict) :=
  match connect w with
  | Some exc =>
      emit (Syslog "Could not connect to Flux instance; Flux may be down") ;;;
      emit (Syslog ("exception message: " ++ exc)) ;;;
      sys_exit 0
  | None =>
      last_timestamp <~ (if is_none last_timestamp then read_timestamp w
                         else ret last_timestamp) ;;
      match config_get w with
      | None => sys_exit 1
      | Some qlist =>
          queue_info <~ lift (get_method qlist "queues" (VDict [])) ;;
          queue_timelimits <~
            lift (set_queue_limits queue_info queue_timelimits) ;;
          emit (JobListInactive last_timestamp) ;;;
          jobs <~ get_jobs w last_timestamp ;;
          jobs <~ for_each (fun job => lift (enrich w job)) jobs ;;
          ret (queue_timelimits, jobs)
      end
  end.

(** [main]; [since] is the value of [--since], an [int] when given.  The
    table [queue_timelimits] is empty when the script starts. *)
Definition main (w : World) (since : option Z) : proc unit :=
  let arg := match since with Some z => VInt z | None => VNone end in
  fetched <~ fetch_new_jobs w [] arg ;;
  let '(queue_timelimits, jobs) := fetched in
  job_records <~ lift (create_job_dicts (env w) queue_timelimits jobs) ;;
  _ <~ for_each (fun job => emit (Stdout job)) job_records ;;
  ret tt.

(** The records that a run printed. *)
Fixpoint printed (tr : list event) : list value :=
  match tr with
  | [] => []
  | Stdout r :: tr' => r :: printed tr'
  | _ :: tr' => printed tr'
  end.

(** The timestamps that a run queried the inactive jobs with. *)
Fixpoint queried (tr : list event) : list value :=
  match tr with
  | [] => []
  | JobListInactive t :: tr' => t :: queried tr'
  | _ :: tr' => queried tr'
  end.

End Exporter.

(* ===================================================================== *)
(** * Facts about the built-in operations *)
(* ===================================================================== *)

Module PyFacts.
Import Py.
Local Open Scope py_scope.

Lemma bind_ok {A B} (c : result A) (k : A -> result B) (b : B) :
  bind c k = Ok b -> exists a, c = Ok a /\ k a = Ok b.
Proof.
  destruct c as [a|e]; simpl; intros H; [eauto | discriminate].
Qed.

Lemma bind_raise {A B} (c : result A) (k : A -> result B) (e : exn) :
  c = Raise e -> bind c k = Raise e.
Proof. intros ->; reflexivity. Qed.

(** Breaking [x <- c ;; k = Ok b] into its steps. *)
Ltac bind_inv H :=
  let a := fresh "r" in
  let H1 := fresh "Hstep" in
  let H2 := fresh "Hrest" in
  apply bind_ok in H; destruct H as (a & H1 & H2).

(** ** Dictionaries *)

Lemma dict_get_set_same {A} (d : list (string * A)) k v :
  dict_get (dict_set d k v) k = Some v.
Proof.
  induction d as [|[k' v'] d IH]; simpl.
  - rewrite String.eqb_refl; reflexivity.
  - destruct (String.eqb k' k) eqn:E; simpl; rewrite E; auto.
Qed.

Lemma dict_get_set_other {A} (d : list (string * A)) k k' v :
  String.eqb k k' = false ->
  dict_get (dict_set d k v) k' = dict_get d k'.
Proof.
  intros Hk. induction d as [|[k0 v0] d IH]; simpl.
  - rewrite Hk; reflexivity.
  - destruct (String.eqb k0 k) eqn:E; simpl.
    + apply String.eqb_eq in E; subst k0. rewrite Hk; reflexivity.
    + destruct (String.eqb k0 k'); auto.
Qed.

(** ** Paths *)

(** Two paths diverge when they differ at a position that both have: then
    neither names a container of the other's target. *)
Fixpoint diverge (p q : list string) : bool :=
  match p, q with
  | a :: p', b :: q' => if String.eqb a b then diverge p' q' else true
  | _, _ => false
  end.

(** No path of [ws] leads to or through [q]. *)
Definition untouched (ws : list (list string)) (q : list string) : bool :=
  forallb (fun p => diverge p q) ws.

Lemma set_path_cons r k p x r' :
  p <> [] ->
  set_path r (k :: p) x = Ok r' ->
  exists d sub sub',
    r = VDict d /\ dict_get d k = Some sub /\ set_path sub p x = Ok sub'
    /\ r' = VDict (dict_set d k sub').
Proof.
  intros Hp H. destruct p as [|k2 p]; [congruence|].
  cbn [set_path] in H. bind_inv H. bind_inv Hrest.
  destruct r; simpl in *; try discriminate.
  destruct (dict_get d k) eqn:E; [|discriminate].
  injection Hstep as ->. injection Hrest0 as <-.
  eauto 8.
Qed.

Lemma set_path_single r k x r' :
  set_path r [k] x = Ok r' ->
  exists d, r = VDict d /\ r' = VDict (dict_set d k x).
Proof.
  simpl. destruct r; simpl; try discriminate.
  intros H; injection H as <-. eauto.
Qed.

Lemma lookup_set_path_same p : forall r x r',
  p <> [] -> set_path r p x = Ok r' -> lookup r' p = Some x.
Proof.
  induction p as [|k p IH]; intros r x r' Hp H; [congruence|].
  destruct p as [|k2 p].
  - apply set_path_single in H. destruct H as (d & -> & ->).
    simpl. rewrite dict_get_set_same. reflexivity.
  - apply set_path_cons in H; [|discriminate].
    destruct H as (d & sub & sub' & -> & Hsub & Hset & ->).
    cbn [lookup]. rewrite dict_get_set_same.
    eapply IH; [discriminate | eassumption].
Qed.

Lemma lookup_set_path_other p : forall r x r' q,
  diverge p q = true -> set_path r p x = Ok r' -> lookup r' q = lookup r q.
Proof.
  induction p as [|k p IH]; intros r x r' q Hd H; [discriminate|].
  destruct q as [|b q]; [discriminate|].
  cbn [diverge] in Hd.
  destruct p as [|k2 p].
  - apply set_path_single in H. destruct H as (d & -> & ->).
    destruct (String.eqb k b) eqn:E; [destruct q; discriminate|].
    cbn [lookup]. rewrite dict_get_set_other by assumption. reflexivity.
  - apply set_path_cons in H; [|discriminate].
    destruct H as (d & sub & sub' & -> & Hsub & Hset & ->).
    cbn [lookup].
    destruct (String.eqb k b) eqn:E.
    + apply String.eqb_eq in E; subst b.
      rewrite dict_get_set_same, Hsub. eapply IH; eassumption.
    + rewrite dict_get_set_other by assumption. reflexivity.
Qed.

Lemma getitem_lookup r k v : getitem r k = Ok v -> lookup r [k] = Some v.
Proof.
  destruct r; simpl; try discriminate.
  destruct (dict_get d k); [|discriminate]. intros H; injection H as ->.
  reflexivity.
Qed.

(** ** [map_result] *)

Lemma map_result_ok {A B} (f : A -> result B) l : forall ys,
  map_result f l = Ok ys -> Forall2 (fun x y => f x = Ok y) l ys.
Proof.
  induction l as [|x l IH]; simpl; intros ys H.
  - injection H as <-. constructor.
  - bind_inv H. bind_inv Hrest. injection Hrest0 as <-.
    constructor; auto.
Qed.

Lemma map_result_raise {A B} (f : A -> result B) pre x post e :
  Forall (fun y => exists z, f y = Ok z) pre ->
  f x = Raise e ->
  map_result f (pre ++ x :: post) = Raise e.
Proof.
  intros Hpre Hx. induction Hpre as [|y pre [z Hz] _ IH]; simpl.
  - rewrite Hx. reflexivity.
  - rewrite Hz. simpl. rewrite IH. reflexivity.
Qed.

Lemma map_result_raises {A B} (f : A -> result B) l x e :
  In x l -> f x = Raise e -> exists e', map_result f l = Raise e'.
Proof.
  induction l as [|y l IH]; simpl; intros Hin Hx; [contradiction|].
  destruct (f y) as [z|e0] eqn:Ey; simpl; [|eauto].
  destruct Hin as [->|Hin]; [congruence|].
  destruct (IH Hin Hx) as [e' ->]. simpl. eauto.
Qed.

(** ** [sorted] *)

Lemma insert_by_key_perm {A} k (x : A) l : forall l',
  insert_by_key k x l = Ok l' -> Permutation ((k, x) :: l) l'.
Proof.
  induction l as [|[ky y] l IH]; simpl; intros l' H.
  - injection H as <-. apply Permutation_refl.
  - bind_inv H. destruct r.
    + injection Hrest as <-. apply Permutation_refl.
    + bind_inv Hrest. injection Hrest0 as <-.
      eapply perm_trans; [apply perm_swap|].
      apply perm_skip. apply IH. assumption.
Qed.

Lemma sort_keyed_perm {A} (l : list (value * A)) : forall acc s,
  sort_keyed acc l = Ok s -> Permutation (acc ++ l) s.
Proof.
  induction l as [|[k x] l IH]; simpl; intros acc s H.
  - injection H as <-. rewrite app_nil_r. apply Permutation_refl.
  - bind_inv H. apply IH in Hrest. apply insert_by_key_perm in Hstep.
    eapply perm_trans; [|exact Hrest].
    eapply perm_trans; [apply Permutation_sym, Permutation_middle|].
    exact (Permutation_app_tail l Hstep).
Qed.

Lemma map_snd_combine {A B} (ks : list A) (l : list B) :
  List.length ks = List.length l -> map snd (combine ks l) = l.
Proof.
  revert l. induction ks as [|k ks IH]; destruct l; simpl; intros H;
    try discriminate; auto.
  f_equal. apply IH. congruence.
Qed.

(** What [sorted] returns is a rearrangement of its argument. *)
Lemma sorted_perm {A} (key : A -> result value) l s :
  sorted key l = Ok s -> Permutation l s.
Proof.
  unfold sorted. intros H. bind_inv H. bind_inv Hrest.
  injection Hrest0 as <-.
  apply sort_keyed_perm in Hstep0. simpl in Hstep0.
  apply map_result_ok in Hstep.
  rewrite <- (map_snd_combine r l) at 1
    by (symmetry; eapply Forall2_length; eassumption).
  apply Permutation_map. assumption.
Qed.

(** ** Sorting keys of two kinds *)

Definition is_number (v : value) : bool :=
  match as_num v with Some _ => true | None => false end.

Definition is_text (v : value) : bool :=
  match v with VStr _ => true | _ => false end.

(** A key that is a number or a string. *)
Definition plain_key (v : value) : bool := is_number v || is_text v.

(** All numbers, or all strings. *)
Definition one_kind (ks : list value) : Prop :=
  Forall (fun k => is_number k = true) ks
  \/ Forall (fun k => is_text k = true) ks.

Lemma py_lt_plain a b :
  plain_key a = true -> plain_key b = true ->
  (exists r, py_lt a b = Ok r
             /\ (is_number a = is_number b /\ is_text a = is_text b))
  \/ (py_lt a b = Raise TypeError /\ is_number a <> is_number b).
Proof.
  destruct a, b; simpl; intros Ha Hb; try discriminate;
    try (left; eexists; split; [reflexivity | split; reflexivity]);
    right; split; try reflexivity; discriminate.
Qed.

Lemma one_kind_cons k ks :
  plain_key k = true ->
  one_kind ks ->
  (forall k', nth_error ks 0 = Some k' ->
     is_number k = is_number k' /\ is_text k = is_text k') ->
  one_kind (k :: ks).
Proof.
  intros Hk Hks Hhead. destruct ks as [|k' ks].
  - unfold plain_key in Hk. apply orb_prop in Hk.
    destruct Hk; [left | right]; repeat constructor; assumption.
  - destruct (Hhead k' eq_refl) as [Hn Ht].
    destruct Hks as [H|H]; [left | right]; constructor; try assumption;
      inversion H; subst; congruence.
Qed.

Lemma one_kind_perm ks ks' :
  Permutation ks ks' -> one_kind ks -> one_kind ks'.
Proof.
  intros Hp [H|H]; [left | right]; eapply Permutation_Forall; eassumption.
Qed.

(** An insertion that succeeds has compared the key with the first key of
    the list, which is therefore of the same kind; one that fails on plain
    keys fails with [TypeError]. *)
Lemma insert_by_key_plain {A} k (x : A) l :
  plain_key k = true ->
  Forall (fun ky => plain_key ky = true) (map fst l) ->
  one_kind (map fst l) ->
  (exists l', insert_by_key k x l = Ok l' /\ one_kind (k :: map fst l))
  \/ insert_by_key k x l = Raise TypeError.
Proof.
  intros Hk. induction l as [|[ky y] l IH]; intros Hplain Hkind.
  - left. eexists. split; [reflexivity|].
    apply one_kind_cons; auto. intros k'. discriminate.
  - cbn [map fst] in *. inversion Hplain as [|? ? Hky Hrest]; subst.
    cbn [insert_by_key].
    destruct (py_lt_plain k ky Hk Hky) as [(r & -> & Hsame) | [-> _]];
      [|right; reflexivity].
    assert (Hcons : one_kind (k :: ky :: map fst l)).
    { apply one_kind_cons; auto. intros k' Hk'. injection Hk' as <-.
      exact Hsame. }
    cbn [bind]. destruct r.
    + left. eexists. split; [reflexivity | exact Hcons].
    + assert (Htail : one_kind (map fst l)).
      { destruct Hkind as [H|H]; [left | right]; inversion H; assumption. }
      destruct (IH Hrest Htail) as [(l' & -> & _) | ->].
      * left. eexists. split; [reflexivity | exact Hcons].
      * right. reflexivity.
Qed.

Lemma sort_keyed_plain {A} (l : list (value * A)) : forall acc,
  Forall (fun k => plain_key k = true) (map fst (acc ++ l)) ->
  one_kind (map fst acc) ->
  (exists s, sort_keyed acc l = Ok s /\ one_kind (map fst (acc ++ l)))
  \/ sort_keyed acc l = Raise TypeError.
Proof.
  induction l as [|[k x] l IH]; intros acc Hplain Hkind.
  - left. exists acc. rewrite app_nil_r. auto.
  - rewrite map_app, Forall_app in Hplain. destruct Hplain as [Hacc Hl].
    cbn [map fst] in Hl. inversion Hl as [|? ? Hk Hrest]; subst.
    cbn [sort_keyed].
    destruct (insert_by_key_plain k x acc Hk Hacc Hkind)
      as [(acc' & Hins & Hcons) | ->]; [|right; reflexivity].
    rewrite Hins. cbn [bind].
    pose proof (insert_by_key_perm _ _ _ _ Hins) as Hperm.
    assert (Hperm' : Permutation (k :: map fst acc) (map fst acc'))
      by exact (Permutation_map fst Hperm).
    destruct (IH acc') as [(s & -> & Hall) | ->]; [| |left|right; reflexivity].
    + rewrite map_app, Forall_app. split; [|assumption].
      eapply Permutation_Forall; [exact Hperm'|]. constructor; assumption.
    + eapply one_kind_perm; eassumption.
    + eexists. split; [reflexivity|].
      eapply one_kind_perm; [|exact Hall].
      rewrite !map_app. cbn [map fst].
      eapply perm_trans;
        [apply Permutation_app_tail, Permutation_sym, Hperm'|].
      cbn [app]. apply Permutation_middle.
Qed.

(** [sorted] on plain keys: it returns only when the keys are of one kind,
    and fails with [TypeError] otherwise. *)
Lemma sorted_plain {A} (key : A -> result value) l keys :
  map_result key l = Ok keys ->
  Forall (fun k => plain_key k = true) keys ->
  (exists s, sorted key l = Ok s /\ one_kind keys)
  \/ sorted key l = Raise TypeError.
Proof.
  intros Hkeys Hplain. unfold sorted. rewrite Hkeys. cbn [bind].
  assert (Hlen : List.length keys = List.length l)
    by (symmetry; eapply Forall2_length, map_result_ok; eassumption).
  assert (Hfst : map fst (combine keys l) = keys).
  { clear -Hlen. revert l Hlen.
    induction keys as [|k keys IH]; destruct l; simpl; intros H;
      try discriminate; auto.
    f_equal. apply IH. congruence. }
  destruct (sort_keyed_plain (combine keys l) [])
    as [(s & -> & Hkind) | ->].
  - cbn [app]. rewrite Hfst. assumption.
  - left. repeat constructor.
  - left. eexists. split; [reflexivity|].
    cbn [app] in Hkind. rewrite Hfst in Hkind. exact Hkind.
  - right. reflexivity.
Qed.

(** ** Sorting keys that are totally ordered *)

Section SortedOutput.

Context {A : Type}.

(** The keys at hand, and what [<] answers on them. *)
Variable ok : value -> Prop.
Variable ltb : value -> value -> bool.

Hypothesis lt_ok : forall a b, ok a -> ok b -> py_lt a b = Ok (ltb a b).
Hypothesis ltb_asym : forall a b, ok a -> ok b ->
  ltb a b = true -> ltb b a = false.
Hypothesis ltb_trans : forall a b c, ok a -> ok b -> ok c ->
  ltb b a = false -> ltb c b = false -> ltb c a = false.

(** [p] may stand before [q]: the key of [q] is not smaller. *)
Definition key_le (p q : value * A) : Prop := ltb (fst q) (fst p) = false.

Lemma insert_by_key_sorted k (x : A) l :
  ok k -> Forall (fun p => ok (fst p)) l -> StronglySorted key_le l ->
  exists l', insert_by_key k x l = Ok l' /\ StronglySorted key_le l'.
Proof.
  intros Hk. induction l as [|[ky y] l IH]; intros Hok Hs.
  - eexists. split; [reflexivity|]. repeat constructor.
  - inversion Hok as [|? ? Hky Hrest]; subst. cbn [fst] in Hky.
    inversion Hs as [|? ? Hsl Hall]; subst.
    cbn [insert_by_key]. rewrite (lt_ok _ _ Hk Hky). cbn [bind].
    destruct (ltb k ky) eqn:Hlt.
    + eexists. split; [reflexivity|].
      apply SSorted_cons; [assumption|].
      constructor.
      * unfold key_le. cbn [fst]. auto.
      * rewrite Forall_forall in *. intros [kz z] Hz.
        unfold key_le. cbn [fst].
        apply (ltb_trans k ky kz); auto.
        -- exact (Hrest _ Hz).
        -- exact (Hall _ Hz).
    + destruct (IH Hrest Hsl) as (l' & Hins & Hsorted).
      rewrite Hins. cbn [bind]. eexists. split; [reflexivity|].
      apply SSorted_cons; [assumption|].
      apply insert_by_key_perm in Hins.
      eapply Permutation_Forall; [exact Hins|].
      constructor; [exact Hlt | assumption].
Qed.

Lemma sort_keyed_sorted (l : list (value * A)) : forall acc,
  Forall (fun p => ok (fst p)) acc -> Forall (fun p => ok (fst p)) l ->
  StronglySorted key_le acc ->
  exists s, sort_keyed acc l = Ok s /\ StronglySorted key_le s.
Proof.
  induction l as [|[k x] l IH]; intros acc Hacc Hl Hs.
  - eexists. split; [reflexivity | assumption].
  - inversion Hl as [|? ? Hk Hrest]; subst. cbn [fst] in Hk.
    destruct (insert_by_key_sorted k x acc Hk Hacc Hs)
      as (acc' & Hins & Hsorted).
    cbn [sort_keyed]. rewrite Hins. cbn [bind].
    apply IH; try assumption.
    apply insert_by_key_perm in Hins.
    eapply Permutation_Forall; [exact Hins|]. constructor; assumption.
Qed.

(** [sorted] returns on such keys, and no element of its result has a
    smaller key than an element before it. *)
Lemma sorted_sorted (key : A -> result value) l :
  Forall (fun x => exists k, key x = Ok k /\ ok k) l ->
  exists s,
    sorted key l = Ok s
    /\ StronglySorted
         (fun x y => exists kx ky,
                       key x = Ok kx /\ key y = Ok ky /\ ltb ky kx = false)
         s.
Proof.
  intros Hl.
  assert (Hkeys : exists keys,
             map_result key l = Ok keys
             /\ Forall (fun p => key (snd p) = Ok (fst p) /\ ok (fst p))
                       (combine keys l)).
  { induction Hl as [|x l (k & Hk & Hokk) _ (keys & Hmap & Hall)].
    - exists []. split; [reflexivity | constructor].
    - exists (k :: keys). simpl. rewrite Hk, Hmap. split; [reflexivity|].
      constructor; auto. }
  destruct Hkeys as (keys & Hmap & Hall).
  unfold sorted. rewrite Hmap. cbn [bind].
  destruct (sort_keyed_sorted (combine keys l) []) as (s & Hsort & Hsorted).
  - constructor.
  - eapply Forall_impl; [|exact Hall]. intros p [_ Hp]. exact Hp.
  - constructor.
  - rewrite Hsort. cbn [bind]. eexists. split; [reflexivity|].
    apply sort_keyed_perm in Hsort. cbn [app] in Hsort.
    pose proof (Permutation_Forall Hsort Hall) as Hall'.
    clear -Hsorted Hall'.
    induction Hsorted as [|p s Hs IH Hp]; [constructor|].
    inversion Hall' as [|? ? [Hkp _] Hrest]; subst.
    cbn [map]. constructor; [auto|].
    rewrite Forall_forall in *. intros y Hy.
    apply in_map_iff in Hy. destruct Hy as (q & <- & Hq).
    exists (fst p), (fst q). repeat split; auto.
    + apply (Hrest _ Hq).
    + apply (Hp _ Hq).
Qed.

End SortedOutput.

(** ** The order of floats *)

(** Floats other than NaN are ordered like these triples, taken
    lexicographically. *)
Definition rank (f : float) : Z * Z * Z :=
  match f with
  | S754_infinity true => (-2, 0, 0)
  | S754_finite true m e => (-1, - e, Z.neg m)
  | S754_zero _ | S754_nan => (0, 0, 0)
  | S754_finite false m e => (1, e, Z.pos m)
  | S754_infinity false => (2, 0, 0)
  end.

Definition lex3 (a b : Z * Z * Z) : comparison :=
  let '(a1, a2, a3) := a in
  let '(b1, b2, b3) := b in
  match a1 ?= b1 with
  | Eq => match a2 ?= b2 with
          | Eq => a3 ?= b3
          | c => c
          end
  | c => c
  end.

Lemma SFcompare_rank f g :
  f <> S754_nan -> g <> S754_nan ->
  SFcompare f g = Some (lex3 (rank f) (rank g)).
Proof.
  intros Hf Hg.
  destruct f as [s1|s1| |s1 m1 e1], g as [s2|s2| |s2 m2 e2];
    try congruence; try destruct s1; try destruct s2; try reflexivity;
    cbn [SFcompare rank lex3]; cbn [Z.compare Pos.compare];
    try rewrite Z.compare_opp;
    try rewrite (Z.compare_antisym e1 e2);
    destruct (e1 ?= e2); reflexivity.
Qed.

Lemma lex3_trans a b c :
  lex3 b a <> Lt -> lex3 c b <> Lt -> lex3 c a <> Lt.
Proof.
  destruct a as [[a1 a2] a3], b as [[b1 b2] b3], c as [[c1 c2] c3].
  unfold lex3.
  repeat match goal with
         | |- context [?x ?= ?y] => destruct (Z.compare_spec x y)
         end;
    try congruence; try lia.
Qed.

Lemma lex3_asym a b : lex3 a b = Lt -> lex3 b a <> Lt.
Proof.
  destruct a as [[a1 a2] a3], b as [[b1 b2] b3].
  unfold lex3.
  repeat match goal with
         | |- context [?x ?= ?y] => destruct (Z.compare_spec x y)
         end;
    try congruence; try lia.
Qed.

(** A float that is not a NaN. *)
Definition ordered_float (v : value) : Prop :=
  exists f, v = VFloat f /\ f <> S754_nan.

Definition float_ltb (a b : value) : bool :=
  match a, b with
  | VFloat f, VFloat g => SFltb f g
  | _, _ => false
  end.

Lemma float_lt_ok a b :
  ordered_float a -> ordered_float b -> py_lt a b = Ok (float_ltb a b).
Proof.
  intros (f & -> & Hf) (g & -> & Hg). cbn [py_lt as_num compare_num float_ltb].
  unfold SFltb. destruct (SFcompare f g) as [[| |]|]; reflexivity.
Qed.

Lemma float_ltb_rank f g :
  f <> S754_nan -> g <> S754_nan ->
  SFltb f g = match lex3 (rank f) (rank g) with Lt => true | _ => false end.
Proof.
  intros Hf Hg. unfold SFltb. rewrite SFcompare_rank by assumption.
  reflexivity.
Qed.

Lemma float_ltb_asym a b :
  ordered_float a -> ordered_float b ->
  float_ltb a b = true -> float_ltb b a = false.
Proof.
  intros (f & -> & Hf) (g & -> & Hg). cbn [float_ltb].
  rewrite !float_ltb_rank by assumption.
  pose proof (lex3_asym (rank f) (rank g)) as H.
  destruct (lex3 (rank f) (rank g)); try discriminate.
  intros _. destruct (lex3 (rank g) (rank f)); try reflexivity.
  exfalso. apply H; reflexivity.
Qed.

Lemma float_ltb_trans a b c :
  ordered_float a -> ordered_float b -> ordered_float c ->
  float_ltb b a = false -> float_ltb c b = false -> float_ltb c a = false.
Proof.
  intros (f & -> & Hf) (g & -> & Hg) (h & -> & Hh). cbn [float_ltb].
  rewrite !float_ltb_rank by assumption.
  pose proof (lex3_trans (rank f) (rank g) (rank h)) as H.
  destruct (lex3 (rank g) (rank f)); try discriminate;
    destruct (lex3 (rank h) (rank g)); try discriminate;
    destruct (lex3 (rank h) (rank f)); try reflexivity;
    intros _ _; exfalso; apply H; congruence.
Qed.

End PyFacts.

(* ===================================================================== *)
(** * Facts about the record mapping *)
(* ===================================================================== *)

Module ExporterFacts.
Import Py PyFacts Exporter.
Local Open Scope py_scope.

(** ** What each block of the loop body writes *)

(** The fields copied from the job: the path in the record and the key of
    the job (lines 174-195). *)
Definition direct_copies : list (list string * string) :=
  [ (["job"; "id"], "id");
    (["user"; "id"], "userid");
    (["job"; "name"], "name");
    (["job"; "priority"], "priority");
    (["job"; "state"], "state");
    (["job"; "bank"], "bank");
    (["job"; "queue"], "queue");
    (["job"; "project"], "project");
    (["job"; "jobspec"], "jobspec");
    (["job"; "eventlog"], "eventlog");
    (["job"; "requested_duration"], "duration");
    (["job"; "node"; "list"], "nodelist");
    (["job"; "node"; "count"], "nnodes");
    (["job"; "task"; "count"], "ntasks");
    (["job"; "cwd"], "cwd");
    (["job"; "urgency"], "urgency");
    (["job"; "success"], "success");
    (["job"; "exit_code"], "waitstatus");
    (["job"; "t_submit"], "t_submit");
    (["job"; "t_run"], "t_run");
    (["job"; "t_inactive"], "t_inactive");
    (["job"; "t_cleanup"], "t_cleanup") ].

Definition copy_fields_writes : list (list string) := map fst direct_copies.
Definition set_outcome_writes : list (list string) := [["event"; "outcome"]].
Definition set_queue_writes : list (list string) :=
  [["job"; "queue_maxtimelimit"]].
Definition set_identity_writes : list (list string) :=
  [["user"; "name"]; ["group"; "id"]; ["group"; "name"]].
Definition set_times_writes : list (list string) :=
  [["job"; "submittime_epoch"]; ["job"; "submittime"]; ["event"; "start"];
   ["event"; "end"]; ["job"; "timelimit"]].
Definition set_eligible_writes : list (list string) :=
  [["job"; "eligibletime"]; ["job"; "queue_time"]].
Definition set_duration_writes : list (list string) :=
  [["event"; "duration_seconds"]; ["event"; "duration"]].
Definition set_proc_count_writes : list (list string) :=
  [["job"; "proc"; "count"]].
Definition set_exception_writes : list (list string) :=
  [["job"; "exception_type"]; ["job"; "exception_note"]].

(** Following a block statement by statement: every assignment leaves the
    path of the goal alone. *)
Ltac walk H :=
  lazymatch type of H with
  | Ok _ = Ok _ => congruence
  | set_path _ _ _ = Ok _ =>
      refine (lookup_set_path_other _ _ _ _ _ _ H); assumption
  | (if ?b then _ else _) = Ok _ => destruct b eqn:?; walk H
  | bind ?c _ = Ok _ =>
      let r1 := fresh "r" in
      let H1 := fresh "Hstep" in
      let H2 := fresh "Hrest" in
      apply bind_ok in H; destruct H as (r1 & H1 & H2);
      lazymatch c with
      | set_path _ _ _ => walk_through r1 H1 H2
      | (if _ then _ else _) => walk_through r1 H1 H2
      | _ => walk H2
      end
  end
with walk_through r1 H1 H2 :=
  lazymatch goal with
  | |- lookup _ ?q = _ => transitivity (lookup r1 q); [walk H2 | walk H1]
  end.

Ltac frame H Hq :=
  unfold untouched in Hq; cbn [forallb map fst direct_copies] in Hq;
  repeat (apply andb_prop in Hq;
          let Hd := fresh "Hd" in destruct Hq as [Hd Hq]);
  walk H.

Lemma copy_fields_frame job rec rec' q :
  copy_fields job rec = Ok rec' ->
  untouched copy_fields_writes q = true -> lookup rec' q = lookup rec q.
Proof.
  unfold copy_fields, copy_fields_writes. intros H Hq. frame H Hq.
Qed.

Lemma set_outcome_frame job rec rec' q :
  set_outcome job rec = Ok rec' ->
  untouched set_outcome_writes q = true -> lookup rec' q = lookup rec q.
Proof.
  unfold set_outcome, set_outcome_writes. intros H Hq. frame H Hq.
Qed.

Lemma set_queue_frame qt rec rec' q :
  set_queue_maxtimelimit qt rec = Ok rec' ->
  untouched set_queue_writes q = true -> lookup rec' q = lookup rec q.
Proof.
  unfold set_queue_maxtimelimit, set_queue_writes. intros H Hq. frame H Hq.
Qed.

Lemma set_identity_frame env rec rec' q :
  set_identity env rec = Ok rec' ->
  untouched set_identity_writes q = true -> lookup rec' q = lookup rec q.
Proof.
  unfold set_identity, set_identity_writes. intros H Hq. frame H Hq.
Qed.

Lemma set_times_frame job rec rec' q :
  set_times job rec = Ok rec' ->
  untouched set_times_writes q = true -> lookup rec' q = lookup rec q.
Proof.
  unfold set_times, set_times_writes. intros H Hq. frame H Hq.
Qed.

Lemma set_eligible_frame job rec rec' q :
  set_eligible job rec = Ok rec' ->
  untouched set_eligible_writes q = true -> lookup rec' q = lookup rec q.
Proof.
  unfold set_eligible, set_eligible_writes. intros H Hq. frame H Hq.
Qed.

Lemma set_duration_frame job rec rec' q :
  set_duration job rec = Ok rec' ->
  untouched set_duration_writes q = true -> lookup rec' q = lookup rec q.
Proof.
  unfold set_duration, set_duration_writes. intros H Hq. frame H Hq.
Qed.

Lemma set_proc_count_frame job rec rec' q :
  set_proc_count job rec = Ok rec' ->
  untouched set_proc_count_writes q = true -> lookup rec' q = lookup rec q.
Proof.
  unfold set_proc_count, set_proc_count_writes. intros H Hq. frame H Hq.
Qed.

Lemma set_exception_frame job rec rec' q :
  set_exception job rec = Ok rec' ->
  untouched set_exception_writes q = true -> lookup rec' q = lookup rec q.
Proof.
  unfold set_exception, set_exception_writes. intros H Hq. frame H Hq.
Qed.

(** ** The blocks in sequence *)

(** The record that [new_record] builds. *)
Definition empty_record : value :=
  VDict
    [ ("event", VDict [("dataset", VStr "flux.joblog")]);
      ("job", VDict [ ("node", VDict [("list", VInt (-1))]);
                      ("task", VDict []);
                      ("proc", VDict []) ]);
      ("user", VDict []);
      ("group", VDict []);
      ("schema",
       VDict [("version_number",
               VFloat (S754_finite false 4953959590107546 (-51)))]) ].

Lemma new_record_eq : new_record = Ok empty_record.
Proof. reflexivity. Qed.

(** The copies cannot fail on the new record. *)
Lemma copy_fields_ok job : exists rec, copy_fields job empty_record = Ok rec.
Proof. eexists. cbv -[get]. reflexivity. Qed.

(** The records that each block of the loop body leaves. *)
Inductive stages (env : Env) (qt job : dict) (rec : value) : Prop :=
| mk_stages (copied with_outcome with_queue with_identity with_times
             with_eligible with_duration with_proc with_exception : value)
    (H_copy : copy_fields job empty_record = Ok copied)
    (H_outcome : set_outcome job copied = Ok with_outcome)
    (H_queue : set_queue_maxtimelimit qt with_outcome = Ok with_queue)
    (H_identity : set_identity env with_queue = Ok with_identity)
    (H_times : set_times job with_identity = Ok with_times)
    (H_eligible : set_eligible job with_times = Ok with_eligible)
    (H_duration : set_duration job with_eligible = Ok with_duration)
    (H_proc : set_proc_count job with_duration = Ok with_proc)
    (H_exception : set_exception job with_proc = Ok with_exception)
    (H_scheduler :
       set_path with_exception ["job"; "scheduler"] (VStr "flux") = Ok rec).

Lemma job_record_stages env qt job rec :
  job_record env qt job = Ok rec -> stages env qt job rec.
Proof.
  unfold job_record. rewrite new_record_eq. cbn [bind]. intros H.
  do 9 (let r := fresh "r" in
        let Hs := fresh "Hs" in
        apply bind_ok in H; destruct H as (r & Hs & H)).
  econstructor; eassumption.
Qed.

(** Reading a path of the finished record back through the blocks that do
    not write it. *)
Ltac back :=
  repeat match goal with
  | H : set_path ?r ?p ?x = Ok ?r' |- context [lookup ?r' ?q] =>
      rewrite (lookup_set_path_other p r x r' q eq_refl H)
  | H : set_exception _ _ = Ok ?r' |- context [lookup ?r' ?q] =>
      rewrite (set_exception_frame _ _ _ q H eq_refl)
  | H : set_proc_count _ _ = Ok ?r' |- context [lookup ?r' ?q] =>
      rewrite (set_proc_count_frame _ _ _ q H eq_refl)
  | H : set_duration _ _ = Ok ?r' |- context [lookup ?r' ?q] =>
      rewrite (set_duration_frame _ _ _ q H eq_refl)
  | H : set_eligible _ _ = Ok ?r' |- context [lookup ?r' ?q] =>
      rewrite (set_eligible_frame _ _ _ q H eq_refl)
  | H : set_times _ _ = Ok ?r' |- context [lookup ?r' ?q] =>
      rewrite (set_times_frame _ _ _ q H eq_refl)
  | H : set_identity _ _ = Ok ?r' |- context [lookup ?r' ?q] =>
      rewrite (set_identity_frame _ _ _ q H eq_refl)
  | H : set_queue_maxtimelimit _ _ = Ok ?r' |- context [lookup ?r' ?q] =>
      rewrite (set_queue_frame _ _ _ q H eq_refl)
  | H : set_outcome _ _ = Ok ?r' |- context [lookup ?r' ?q] =>
      rewrite (set_outcome_frame _ _ _ q H eq_refl)
  | H : copy_fields _ _ = Ok ?r' |- context [lookup ?r' ?q] =>
      rewrite (copy_fields_frame _ _ _ q H eq_refl)
  end.

(** ** The records of the output *)

Lemma Forall2_in_l {A B} (R : A -> B -> Prop) l l' x :
  Forall2 R l l' -> In x l -> exists y, In y l' /\ R x y.
Proof.
  induction 1 as [|a b l l' Hab _ IH]; simpl; [contradiction|].
  intros [->|Hin]; [eauto|].
  destruct (IH Hin) as (y & Hy & HR). eauto.
Qed.

Lemma Forall2_in_r {A B} (R : A -> B -> Prop) l l' y :
  Forall2 R l l' -> In y l' -> exists x, In x l /\ R x y.
Proof.
  induction 1 as [|a b l l' Hab _ IH]; simpl; [contradiction|].
  intros [->|Hin]; [eauto|].
  destruct (IH Hin) as (x & Hx & HR). eauto.
Qed.

(** Every job has its record in the output. *)
Lemma record_of_job env qt jobs recs job :
  create_job_dicts env qt jobs = Ok recs -> In job jobs ->
  exists rec, In rec recs /\ job_record env qt job = Ok rec.
Proof.
  unfold create_job_dicts. intros H Hin. bind_inv H.
  apply map_result_ok in Hstep. apply sorted_perm in Hrest.
  destruct (Forall2_in_l _ _ _ _ Hstep Hin) as (rec & Hrec & Hjob).
  exists rec. split; [|assumption].
  eapply Permutation_in; eassumption.
Qed.

(** Every record of the output is the record of a job. *)
Lemma job_of_record env qt jobs recs rec :
  create_job_dicts env qt jobs = Ok recs -> In rec recs ->
  exists job, In job jobs /\ job_record env qt job = Ok rec.
Proof.
  unfold create_job_dicts. intros H Hin. bind_inv H.
  apply map_result_ok in Hstep. apply sorted_perm in Hrest.
  apply Permutation_sym in Hrest.
  apply (Forall2_in_r _ _ _ rec Hstep).
  eapply Permutation_in; eassumption.
Qed.

(** ** What each block computes *)

Lemma not_none_true v : not_none v = true <-> v <> VNone.
Proof.
  unfold not_none. destruct v; simpl; split; intros H;
    solve [discriminate | reflexivity | congruence].
Qed.

Lemma not_none_false v : not_none v = false <-> v = VNone.
Proof.
  unfold not_none. destruct v; simpl; split; intros H;
    solve [discriminate | reflexivity].
Qed.

Lemma getitem2_lookup r k1 k2 v :
  getitem2 r k1 k2 = Ok v -> lookup r [k1; k2] = Some v.
Proof.
  unfold getitem2. intros H. bind_inv H.
  apply getitem_lookup in Hstep, Hrest.
  destruct r; simpl in *; try discriminate.
  destruct (dict_get d k1); [|discriminate].
  injection Hstep as ->. assumption.
Qed.

(** Reading back the path that an assignment has just written. *)
Lemma getitem2_after_set r k1 k2 x r' v :
  set_path r [k1; k2] x = Ok r' -> getitem2 r' k1 k2 = Ok v -> v = x.
Proof.
  intros Hset Hget. apply getitem2_lookup in Hget.
  rewrite (lookup_set_path_same [k1; k2] r x r' ltac:(discriminate) Hset)
    in Hget.
  congruence.
Qed.

(** Each copied field holds what [job.get] returns: the value of the job,
    or [None]. *)
Lemma copy_fields_spec job rec rec' :
  copy_fields job rec = Ok rec' ->
  Forall (fun pk => lookup rec' (fst pk) = Some (get job (snd pk)))
         direct_copies.
Proof.
  unfold copy_fields. intros H.
  do 21 (let r := fresh "r" in
         let Hs := fresh "Hs" in
         apply bind_ok in H; destruct H as (r & Hs & H)).
  unfold direct_copies.
  repeat constructor; cbn [fst snd];
    repeat match goal with
    | Hs : set_path ?r ?p ?x = Ok ?r' |- lookup ?r' ?p = Some ?x =>
        exact (lookup_set_path_same p r x r' ltac:(discriminate) Hs)
    | Hs : set_path ?r ?p ?x = Ok ?r' |- lookup ?r' ?q = _ =>
        rewrite (lookup_set_path_other p r x r' q eq_refl Hs)
    end.
Qed.




Lemma py_eq_int a b : py_eq (VInt a) (VInt b) = (a =? b).
Proof.
  cbn [py_eq as_num compare_num is_cmp].
  destruct (Z.compare_spec a b) as [E|E|E]; symmetry;
    [apply Z.eqb_eq | apply Z.eqb_neq | apply Z.eqb_neq]; lia.
Qed.

(** An integer that is none of the four keys is not found. *)
Lemma outcome_not_found c :
  ~ In c [1; 2; 4; 8] ->
  getitem_int_keys OUTCOME_CONVERSION (VInt c) = Raise KeyError.
Proof.
  intros Hc. unfold getitem_int_keys, OUTCOME_CONVERSION.
  cbn [hashable find_int_key]. rewrite !py_eq_int.
  simpl in Hc.
  destruct (Z.eqb_spec 1 c); [tauto|].
  destruct (Z.eqb_spec 2 c); [tauto|].
  destruct (Z.eqb_spec 4 c); [tauto|].
  destruct (Z.eqb_spec 8 c); [tauto|].
  reflexivity.
Qed.


Lemma set_eligible_absent job rec :
  get job "t_depend" = VNone \/ get job "t_run" = VNone ->
  set_eligible job rec = Ok rec.
Proof.
  unfold set_eligible. intros [H|H]; rewrite H; simpl;
    [|rewrite andb_false_r]; reflexivity.
Qed.


Lemma set_duration_absent job rec :
  get job "t_inactive" = VNone \/ get job "t_run" = VNone ->
  set_duration job rec = Ok rec.
Proof.
  unfold set_duration. intros [H|H]; rewrite H; simpl;
    [|rewrite andb_false_r]; reflexivity.
Qed.

Lemma set_duration_present job rec rec' :
  get job "t_inactive" <> VNone -> get job "t_run" <> VNone ->
  set_duration job rec = Ok rec' ->
  exists d secs ns,
    sub (get job "t_inactive") (get job "t_run") = Ok d
    /\ round1 d = Ok secs
    /\ mul secs (VInt (10 ^ 9)) = Ok ns
    /\ lookup rec' ["event"; "duration_seconds"] = Some secs
    /\ lookup rec' ["event"; "duration"] = Some ns.
Proof.
  unfold set_duration. intros Hi Hr H.
  apply not_none_true in Hi, Hr. rewrite Hi, Hr in H. cbn [andb] in H.
  bind_inv H. bind_inv Hrest. bind_inv Hrest0. bind_inv Hrest.
  bind_inv Hrest0.
  apply (getitem2_after_set _ _ _ _ _ _ Hstep1) in Hstep2. subst r2.
  exists r, r0, r3. repeat split; try assumption.
  - back.
    eapply lookup_set_path_same; [discriminate | eassumption].
  - eapply lookup_set_path_same; [discriminate | eassumption].
Qed.

Lemma set_proc_count_absent job rec :
  get job "nnodes" = VNone \/ get job "ntasks" = VNone ->
  set_proc_count job rec = Ok rec.
Proof.
  unfold set_proc_count. intros [H|H]; rewrite H; simpl;
    [|rewrite andb_false_r]; reflexivity.
Qed.

Lemma set_proc_count_present job rec rec' :
  get job "nnodes" <> VNone -> get job "ntasks" <> VNone ->
  set_proc_count job rec = Ok rec' ->
  exists n, mul (get job "nnodes") (get job "ntasks") = Ok n
            /\ lookup rec' ["job"; "proc"; "count"] = Some n.
Proof.
  unfold set_proc_count. intros Hn Ht H.
  apply not_none_true in Hn, Ht. rewrite Hn, Ht in H. cbn [andb] in H.
  bind_inv H. exists r. split; [assumption|].
  eapply lookup_set_path_same; [discriminate | eassumption].
Qed.

(** ** The identity block *)

Lemma getitem2_of_lookup r k1 k2 v :
  lookup r [k1; k2] = Some v -> getitem2 r k1 k2 = Ok v.
Proof.
  unfold getitem2. destruct r; simpl; try discriminate.
  destruct (dict_get d k1) as [sub|]; [|discriminate].
  destruct sub; simpl; try discriminate.
  destruct (dict_get d0 k2); [|discriminate].
  intros H; injection H as ->. reflexivity.
Qed.








(** ** The sort key *)

(** The key that [sort_key] reads from the record of a job. *)
Definition submit_key (job : dict) : value :=
  if not_none (get job "t_submit") then get job "t_submit" else VStr "0.0".

Lemma getitem_present job k t :
  get job k <> VNone -> getitem (VDict job) k = Ok t -> t = get job k.
Proof.
  unfold get, get_default. simpl.
  destruct (dict_get job k); [|congruence].
  intros _ H. injection H as ->. reflexivity.
Qed.

(** Only a number is a timestamp. *)
Lemma iso_utc_number t iso :
  Datetime.iso_utc t = Ok iso -> is_number t = true.
Proof.
  unfold Datetime.iso_utc, Datetime.fromtimestamp_utc. intros H.
  bind_inv H. bind_inv Hstep.
  destruct t; simpl in Hstep0; try discriminate; reflexivity.
Qed.

Lemma set_times_submit job rec rec' :
  set_times job rec = Ok rec' ->
  (get job "t_submit" <> VNone ->
   lookup rec' ["job"; "submittime_epoch"] = Some (get job "t_submit")
   /\ is_number (get job "t_submit") = true)
  /\ (get job "t_submit" = VNone ->
      lookup rec' ["job"; "submittime_epoch"]
      = lookup rec ["job"; "submittime_epoch"]).
Proof.
  unfold set_times. intros H. bind_inv H.
  assert (Hrest' : lookup rec' ["job"; "submittime_epoch"]
                   = lookup r ["job"; "submittime_epoch"]).
  { assert (diverge ["event"; "start"] ["job"; "submittime_epoch"] = true)
      by reflexivity.
    assert (diverge ["event"; "end"] ["job"; "submittime_epoch"] = true)
      by reflexivity.
    assert (diverge ["job"; "timelimit"] ["job"; "submittime_epoch"] = true)
      by reflexivity.
    walk Hrest. }
  rewrite Hrest'. split.
  - intros Hs. pose proof Hs as Hs'.
    apply not_none_true in Hs'. rewrite Hs' in Hstep.
    bind_inv Hstep. bind_inv Hrest0. bind_inv Hrest1. bind_inv Hrest0.
    apply (getitem_present _ _ _ Hs) in Hstep0, Hstep1. subst.
    split; [|eapply iso_utc_number; eassumption].
    back.
    exact (lookup_set_path_same ["job"; "submittime_epoch"] _ _ _
             ltac:(discriminate) Hstep).
  - intros Hs. rewrite Hs in Hstep. injection Hstep as <-. reflexivity.
Qed.

Lemma sort_key_lookup rec k v :
  lookup rec ["job"; k] = Some v ->
  sort_key rec
  = Ok match lookup rec ["job"; "submittime_epoch"] with
       | Some t => t
       | None => VStr "0.0"
       end.
Proof.
  unfold sort_key. destruct rec; simpl; try discriminate.
  unfold get_default.
  destruct (dict_get d "job") as [j|]; [|discriminate].
  destruct j; simpl; try discriminate.
  intros _. unfold get_default.
  destruct (dict_get d0 "submittime_epoch"); reflexivity.
Qed.

(** The key of the record of a job is its submit time, a number, or the
    string ["0.0"] when the job has none. *)
Lemma sort_key_of_record env qt job rec :
  job_record env qt job = Ok rec ->
  sort_key rec = Ok (submit_key job) /\ plain_key (submit_key job) = true.
Proof.
  intros H. destruct (job_record_stages _ _ _ _ H).
  pose proof (lookup_set_path_same ["job"; "scheduler"] _ _ _
                ltac:(discriminate) H_scheduler) as Hsched.
  rewrite (sort_key_lookup _ _ _ Hsched). back.
  destruct (set_times_submit _ _ _ H_times) as [Hpresent Habsent].
  unfold submit_key, plain_key.
  destruct (get job "t_submit") eqn:Hs.
  1: { rewrite Habsent by reflexivity. back. split; reflexivity. }
  all: destruct Hpresent as [Hl Hn]; [discriminate|];
    rewrite Hl; cbn [not_none is_none negb];
    split; [reflexivity | rewrite Hn; reflexivity].
Qed.

Lemma sort_keys_of_records env qt jobs recs :
  Forall2 (fun job rec => job_record env qt job = Ok rec) jobs recs ->
  map_result sort_key recs = Ok (map submit_key jobs)
  /\ Forall (fun k => plain_key k = true) (map submit_key jobs).
Proof.
  induction 1 as [|job rec jobs recs Hjob _ [IHk IHp]]; simpl.
  - split; [reflexivity | constructor].
  - destruct (sort_key_of_record _ _ _ _ Hjob) as [-> Hplain].
    cbn [bind]. rewrite IHk. split; [reflexivity | constructor; assumption].
Qed.

(** A batch in which one job has no submit time and another has one is not
    sorted: when every job is mapped, [sorted] raises [TypeError]. *)
Lemma mixed_submit_times_raise env qt jobs recs a b :
  In a jobs -> In b jobs ->
  get a "t_submit" = VNone -> get b "t_submit" <> VNone ->
  map_result (job_record env qt) jobs = Ok recs ->
  create_job_dicts env qt jobs = Raise TypeError.
Proof.
  intros Ha Hb Hnone Hsome Hmap. unfold create_job_dicts.
  rewrite Hmap. cbn [bind].
  destruct (sort_keys_of_records env qt jobs recs (map_result_ok _ _ _ Hmap))
    as [Hkeys Hplain].
  destruct (sorted_plain sort_key recs _ Hkeys Hplain)
    as [(s & _ & Hkind) | Hraise]; [|exact Hraise].
  exfalso.
  assert (Hka : In (VStr "0.0") (map submit_key jobs)).
  { apply in_map_iff. exists a. split; [|assumption].
    unfold submit_key. rewrite Hnone. reflexivity. }
  assert (Hkb : In (get b "t_submit") (map submit_key jobs)).
  { apply in_map_iff. exists b. split; [|assumption].
    unfold submit_key. apply not_none_true in Hsome. rewrite Hsome.
    reflexivity. }
  assert (Hnum : is_number (get b "t_submit") = true).
  { destruct (in_split _ _ Hb) as (pre & post & ->).
    apply map_result_ok in Hmap.
    apply Forall2_app_inv_l in Hmap.
    destruct Hmap as (r1 & r2 & _ & Hcons & _).
    inversion Hcons as [|? rec ? ? Hrec _]; subst.
    destruct (job_record_stages _ _ _ _ Hrec).
    destruct (set_times_submit _ _ _ H_times) as [Hpresent _].
    exact (proj2 (Hpresent Hsome)). }
  destruct Hkind as [Hall | Hall]; rewrite Forall_forall in Hall.
  - specialize (Hall _ Hka). discriminate.
  - specialize (Hall _ Hkb). destruct (get b "t_submit"); discriminate.
Qed.

(** ** The order of the output when every job has a submit time *)

Lemma submit_time_of_record env qt job rec :
  job_record env qt job = Ok rec ->
  get job "t_submit" <> VNone ->
  sort_key rec = Ok (get job "t_submit")
  /\ lookup rec ["job"; "submittime_epoch"] = Some (get job "t_submit").
Proof.
  intros H Hs. destruct (sort_key_of_record _ _ _ _ H) as [Hkey _].
  unfold submit_key in Hkey. pose proof Hs as Hs'.
  apply not_none_true in Hs'. rewrite Hs' in Hkey.
  split; [exact Hkey|].
  destruct (job_record_stages _ _ _ _ H). back.
  exact (proj1 (proj1 (set_times_submit _ _ _ H_times) Hs)).
Qed.

Lemma StronglySorted_impl_in {A} (R R' : A -> A -> Prop) l :
  StronglySorted R l ->
  (forall x y, In x l -> In y l -> R x y -> R' x y) ->
  StronglySorted R' l.
Proof.
  induction 1 as [|x l Hs IH Hall]; intros Himpl; [constructor|].
  constructor.
  - apply IH. intros a b Ha Hb. apply Himpl; right; assumption.
  - rewrite Forall_forall in *. intros y Hy.
    apply Himpl; [left; reflexivity | right; assumption | auto].
Qed.

(** The submit time of [r1] is not after that of [r2]. *)
Definition submitted_before (r1 r2 : value) : Prop :=
  exists t1 t2,
    lookup r1 ["job"; "submittime_epoch"] = Some (VFloat t1)
    /\ lookup r2 ["job"; "submittime_epoch"] = Some (VFloat t2)
    /\ SFltb t2 t1 = false.

(** When every job has a float other than NaN as its submit time, the
    records that [create_job_dicts] returns are in ascending order of
    submit time. *)
Lemma output_sorted_by_submit_time env qt jobs recs :
  Forall (fun job => ordered_float (get job "t_submit")) jobs ->
  create_job_dicts env qt jobs = Ok recs ->
  StronglySorted submitted_before recs.
Proof.
  intros Hjobs H. pose proof H as Hall.
  unfold create_job_dicts in H. bind_inv H.
  pose proof (map_result_ok _ _ _ Hstep) as Hmap.
  assert (Hkeys : Forall (fun rec => exists k, sort_key rec = Ok k
                                               /\ ordered_float k) r).
  { clear -Hjobs Hmap.
    induction Hmap as [|job rec jobs recs Hrec _ IH]; [constructor|].
    inversion Hjobs as [|? ? Hjob Hrest]; subst.
    constructor; [|auto].
    exists (get job "t_submit"). split; [|exact Hjob].
    apply (submit_time_of_record _ _ _ _ Hrec).
    destruct Hjob as (f & -> & _). discriminate. }
  destruct (sorted_sorted ordered_float float_ltb
              float_lt_ok float_ltb_asym float_ltb_trans sort_key r Hkeys)
    as (s & Hsorted & Hs).
  rewrite Hsorted in Hrest. injection Hrest as ->.
  eapply StronglySorted_impl_in; [exact Hs|].
  intros r1 r2 Hr1 Hr2 (k1 & k2 & Hk1 & Hk2 & Hlt).
  destruct (job_of_record _ _ _ _ _ Hall Hr1) as (j1 & Hj1 & Hrec1).
  destruct (job_of_record _ _ _ _ _ Hall Hr2) as (j2 & Hj2 & Hrec2).
  rewrite Forall_forall in Hjobs.
  destruct (Hjobs _ Hj1) as (f1 & Hf1 & _).
  destruct (Hjobs _ Hj2) as (f2 & Hf2 & _).
  destruct (submit_time_of_record _ _ _ _ Hrec1) as [Hkey1 Hl1];
    [rewrite Hf1; discriminate|].
  destruct (submit_time_of_record _ _ _ _ Hrec2) as [Hkey2 Hl2];
    [rewrite Hf2; discriminate|].
  rewrite Hf1 in *. rewrite Hf2 in *.
  rewrite Hkey1 in Hk1. injection Hk1 as <-.
  rewrite Hkey2 in Hk2. injection Hk2 as <-.
  exists f1, f2. auto.
Qed.

End ExporterFacts.

(* ===================================================================== *)
(** * Sample data *)
(* ===================================================================== *)

Module Fixtures.
Import Py Exporter.

(** The float [m * 2^e]. *)
Definition f64 (m e : Z) : value :=
  VFloat (binary_normalize prec emax m e false).

(** A system that knows user 1000, [alice], of group 100, [users]. *)
Definition example_env : Env :=
  mk_env
    (fun uid => if uid =? 1000 then Some (mk_passwd "alice" 100) else None)
    (fun gid => if gid =? 100 then Some "users" else None)
    (fun _ => "").

(** A job that completed: submitted and eligible at 1700000000.5, started
    at 1700000060.5, inactive at 1700000120.75. *)
Definition finished_job : dict :=
  [ ("id", VInt 7); ("userid", VInt 1000); ("name", VStr "hostname");
    ("result", VInt 1);
    ("t_submit", f64 3400000001 (-1));
    ("t_depend", f64 3400000001 (-1));
    ("t_run", f64 3400000121 (-1));
    ("t_inactive", f64 6800000483 (-2));
    ("nnodes", VInt 2); ("ntasks", VInt 8) ].

(** A job that never ran, cancelled at 1700000004.5. *)
Definition cancelled_job : dict :=
  [ ("id", VInt 8); ("userid", VInt 4242); ("result", VInt 4);
    ("t_submit", f64 3400000003 (-1)); ("t_inactive", f64 3400000009 (-1));
    ("nnodes", VInt 1) ].

(** A job whose result code is none of the known ones. *)
Definition unknown_result_job : dict :=
  [ ("id", VInt 9); ("userid", VInt 1000); ("result", VInt 3);
    ("t_submit", f64 3400000005 (-1)) ].

Definition example_jobs : list dict := [finished_job; cancelled_job].

(** *** Reading a float from ASCII text

    [float(text.strip())] for a text of ASCII characters: an optional sign,
    then [inf], [infinity] or [nan] in any case, or digits with an optional
    point and an optional exponent; single underscores may separate
    digits. *)

Definition is_digit (c : ascii) : bool :=
  let n := Z.of_nat (nat_of_ascii c) in (48 <=? n) && (n <=? 57).

Definition digit_value (c : ascii) : Z := Z.of_nat (nat_of_ascii c) - 48.

Definition is_space (c : ascii) : bool :=
  let n := Z.of_nat (nat_of_ascii c) in
  ((9 <=? n) && (n <=? 13)) || ((28 <=? n) && (n <=? 32)).

Fixpoint lstrip (s : string) : string :=
  match s with
  | String c s' => if is_space c then lstrip s' else s
  | EmptyString => s
  end.

Fixpoint rev_string (s acc : string) : string :=
  match s with
  | String c s' => rev_string s' (String c acc)
  | EmptyString => acc
  end.

Definition strip (s : string) : string :=
  rev_string (lstrip (rev_string (lstrip s) "")) "".

Definition lower (c : ascii) : ascii :=
  let n := nat_of_ascii c in
  if (65 <=? n)%nat && (n <=? 90)%nat then ascii_of_nat (n + 32) else c.

Fixpoint lower_string (s : string) : string :=
  match s with
  | String c s' => String (lower c) (lower_string s')
  | EmptyString => EmptyString
  end.

(** The digits at the head of [s]: their value, their number, and the rest
    of [s]; [None] for a misplaced underscore. *)
Fixpoint digitpart (s : string) (acc cnt : Z) (after_digit : bool)
  : option (Z * Z * string) :=
  match s with
  | String c s' =>
      if is_digit c then digitpart s' (acc * 10 + digit_value c) (cnt + 1) true
      else if Ascii.eqb c "_" then
        if after_digit then
          match s' with
          | String c' _ => if is_digit c' then digitpart s' acc cnt false
                           else None
          | EmptyString => None
          end
        else None
      else Some (acc, cnt, s)
  | EmptyString => Some (acc, cnt, s)
  end.

Definition read_sign (s : string) : bool * string :=
  match s with
  | String "-" s' => (true, s')
  | String "+" s' => (false, s')
  | _ => (false, s)
  end.

(** The float nearest to [m * 10^e]. *)
Definition decimal_to_float (neg : bool) (m e : Z) : float :=
  match m with
  | Z.pos p =>
      if 0 <=? e then
        binary_normalize prec emax ((if neg then -1 else 1) * m * 10 ^ e) 0 neg
      else
        match 10 ^ (- e) with
        | Z.pos d => SFdiv prec emax (S754_finite neg p 0) (S754_finite false d 0)
        | _ => S754_nan
        end
  | _ => S754_zero neg
  end.

Definition read_exponent (s : string) : option (Z * string) :=
  match s with
  | String c s' =>
      if Ascii.eqb (lower c) "e" then
        let '(neg, s'') := read_sign s' in
        match digitpart s'' 0 0 false with
        | Some (v, cnt, rest) =>
            if 0 <? cnt then Some ((if neg then - v else v), rest) else None
        | None => None
        end
      else Some (0, s)
  | EmptyString => Some (0, s)
  end.

Definition ascii_float (text : string) : option float :=
  let '(neg, s) := read_sign (strip text) in
  let word := lower_string s in
  if String.eqb word "inf" || String.eqb word "infinity"
  then Some (S754_infinity neg)
  else if String.eqb word "nan" then Some S754_nan
  else
    match digitpart s 0 0 false with
    | Some (ip, icnt, rest) =>
        let frac :=
          match rest with
          | String "." rest' => digitpart rest' ip 0 false
          | _ => Some (ip, 0, rest)
          end in
        match frac with
        | Some (m, fcnt, rest') =>
            if 0 <? icnt + fcnt then
              match read_exponent rest' with
              | Some (e, EmptyString) => Some (decimal_to_float neg m (e - fcnt))
              | _ => None
              end
            else None
        | None => None
        end
    | None => None
    end.

Definition example_records : list value :=
  Eval vm_compute in
    match create_job_dicts example_env [] example_jobs with
    | Ok recs => recs
    | Raise _ => []
    end.

(** The record of [finished_job]. *)
Definition finished_record : value :=
  Eval vm_compute in
    match job_record example_env [] finished_job with
    | Ok rec => rec
    | Raise _ => VNone
    end.

(** The record of [cancelled_job]. *)
Definition cancelled_record : value :=
  Eval vm_compute in
    match job_record example_env [] cancelled_job with
    | Ok rec => rec
    | Raise _ => VNone
    end.

Lemma example_records_eq :
  create_job_dicts example_env [] example_jobs = Ok example_records.
Proof. vm_compute. reflexivity. Qed.

(** *** Jobs to sort *)

(** A job with an id and, when given, a submit time in whole seconds. *)
Definition job_submitted (id : Z) (t_submit : option Z) : dict :=
  ("id", VInt id)
  :: match t_submit with
     | Some t => [("t_submit", f64 t 0)]
     | None => []
     end.

(** Submit times 30, 10, none, 20. *)
Definition unsorted_jobs : list dict :=
  [ job_submitted 1 (Some 30); job_submitted 2 (Some 10);
    job_submitted 3 None; job_submitted 4 (Some 20) ].

Definition unsorted_records : list value :=
  Eval vm_compute in
    match map_result (job_record example_env []) unsorted_jobs with
    | Ok recs => recs
    | Raise _ => []
    end.

(** *** A Flux instance *)

Definition example_config : value :=
  VDict
    [("queues",
      VDict
        [("batch",
          VDict [("policy",
                  VDict [("limits", VDict [("duration", VStr "8h")])])]);
         ("debug", VDict [])])].

(** The jobs that became inactive at [since] or later. *)
Definition jobs_since (since : value) : list dict :=
  filter (fun job =>
            match py_lt (get job "t_inactive") since with
            | Ok true => false
            | _ => true
            end)
         example_jobs.

(** Job 7 has a jobspec and an eventlog in the KVS. *)
Definition example_kvs (id : value) : result value :=
  if py_eq id (VInt 7) then
    Ok (VDict
          [("id", VInt 7);
           ("jobspec",
            VDict
              [("attributes",
                VDict [("system",
                        VDict [("duration", f64 3600 0);
                               ("bank", VStr "physics");
                               ("queue", VStr "batch")])])]);
           ("eventlog", VList [VDict [("name", VStr "submit")]])])
  else Ok VNone.

(** A run that finds [file] where the timestamp is kept and gets [conn]
    when it connects. *)
Definition example_world (file : file_read) (conn : option string) : World :=
  mk_world example_env conn file ascii_float (Some example_config)
           (fun since => inr (jobs_since since)) example_kvs.

(** The record of [finished_job] with what the KVS and the configuration
    add: jobspec, eventlog, bank, queue and its limit. *)
Definition enriched_record : value :=
  Eval vm_compute in
    match enrich (example_world FileNotFound None) finished_job with
    | Ok job =>
        match job_record example_env [("batch", VStr "8h");
                                      ("debug", VStr "UNKNOWN")] job with
        | Ok rec => rec
        | Raise _ => VNone
        end
    | Raise _ => VNone
    end.

End Fixtures.

(* ===================================================================== *)
(** * Properties of the record mapping *)
(* ===================================================================== *)

Module Properties.
Import Py PyFacts Exporter ExporterFacts Fixtures.
Local Open Scope py_scope.

(** What holds of the record of every job holds of a record of the
    output. *)
Lemma in_output (P : dict -> value -> Prop) env qt jobs recs job :
  (forall j rec, job_record env qt j = Ok rec -> P j rec) ->
  create_job_dicts env qt jobs = Ok recs -> In job jobs ->
  exists rec, In rec recs /\ job_record env qt job = Ok rec /\ P job rec.
Proof.
  intros HP H Hin.
  destruct (record_of_job _ _ _ _ _ H Hin) as (rec & Hrec & Hjob).
  exists rec. auto.
Qed.

(** ** Eligible time and queue time *)






(** ** Fields copied from the job *)

(** What lines 174-195 leave in the record: every copied field is there,
    with the value of the job when the job has the attribute and with
    [None] when it has not. *)
Definition copied_fields (job : dict) (rec : value) : Prop :=
  forall path key, In (path, key) direct_copies ->
    lookup rec path = Some (get job key)
    /\ (forall v, dict_get job key = Some v -> lookup rec path = Some v)
    /\ (dict_get job key = None -> lookup rec path = Some VNone).

Lemma job_record_copied env qt job rec :
  job_record env qt job = Ok rec -> copied_fields job rec.
Proof.
  intros H. destruct (job_record_stages _ _ _ _ H).
  pose proof (copy_fields_spec _ _ _ H_copy) as Hall.
  rewrite Forall_forall in Hall.
  intros path key Hin.
  assert (Hl : lookup rec path = Some (get job key)).
  { pose proof (Hall _ Hin) as Hc. cbn [fst snd] in Hc. rewrite <- Hc.
    clear Hc. simpl in Hin.
    repeat (destruct Hin as [Hin|Hin];
            [injection Hin as <- <-; back; reflexivity|]).
    contradiction. }
  split; [exact Hl|].
  unfold get, get_default in Hl.
  split; [intros v Hv | intros Hv]; rewrite Hv in Hl; exact Hl.
Qed.

(** C4 (as amended).  Every direct-copy field is in the record of a job:
    with the raw value when the job has the attribute, with [None] when the
    attribute is absent. *)
Theorem direct_copies_always_present env qt jobs recs job :
  create_job_dicts env qt jobs = Ok recs -> In job jobs ->
  exists rec,
    In rec recs /\ job_record env qt job = Ok rec /\ copied_fields job rec.
Proof.
  exact (in_output copied_fields env qt jobs recs job
           (job_record_copied env qt)).
Qed.

Lemma direct_copies_always_present_witness :
  exists rec,
    In rec example_records
    /\ job_record example_env [] cancelled_job = Ok rec
    /\ copied_fields cancelled_job rec.
Proof.
  apply (direct_copies_always_present example_env [] example_jobs
           example_records cancelled_job).
  - vm_compute. reflexivity.
  - simpl. auto.
Defined.

(** C4 fails as stated: the job that never ran has no [t_run] and no
    [name], and its record has both fields, holding [None]. *)
Lemma absent_attribute_not_omitted :
  create_job_dicts example_env [] [cancelled_job] = Ok [cancelled_record]
  /\ dict_get cancelled_job "t_run" = None
  /\ lookup cancelled_record ["job"; "t_run"] = Some VNone
  /\ dict_get cancelled_job "name" = None
  /\ lookup cancelled_record ["job"; "name"] = Some VNone.
Proof.
  repeat split; vm_compute; reflexivity.
Qed.

(** ** Execution time *)

(** What lines 242-247 leave in the record. *)
Definition duration_fields (job : dict) (rec : value) : Prop :=
  (get job "t_run" <> VNone -> get job "t_inactive" <> VNone ->
   exists d secs ns,
     sub (get job "t_inactive") (get job "t_run") = Ok d
     /\ round1 d = Ok secs
     /\ mul secs (VInt (10 ^ 9)) = Ok ns
     /\ lookup rec ["event"; "duration_seconds"] = Some secs
     /\ lookup rec ["event"; "duration"] = Some ns)
  /\ (get job "t_run" = VNone \/ get job "t_inactive" = VNone ->
      lookup rec ["event"; "duration_seconds"] = None
      /\ lookup rec ["event"; "duration"] = None).

Lemma job_record_duration env qt job rec :
  job_record env qt job = Ok rec -> duration_fields job rec.
Proof.
  intros H. destruct (job_record_stages _ _ _ _ H). split.
  - intros Hr Hi. back. eapply set_duration_present; eassumption.
  - intros Habs.
    rewrite set_duration_absent in H_duration by tauto.
    injection H_duration as <-.
    back. split; reflexivity.
Qed.

(** C5.  For every job with both [t_run] and [t_inactive], the record has
    [event.duration_seconds = round(t_inactive - t_run, 1)] and
    [event.duration = duration_seconds * 10**9]; when either timestamp is
    absent the record has neither field. *)
Theorem duration_from_timestamps env qt jobs recs job :
  create_job_dicts env qt jobs = Ok recs -> In job jobs ->
  exists rec,
    In rec recs /\ job_record env qt job = Ok rec /\ duration_fields job rec.
Proof.
  exact (in_output duration_fields env qt jobs recs job
           (job_record_duration env qt)).
Qed.

Lemma duration_from_timestamps_witness :
  exists rec,
    In rec example_records
    /\ job_record example_env [] finished_job = Ok rec
    /\ duration_fields finished_job rec.
Proof.
  apply (duration_from_timestamps example_env [] example_jobs
           example_records finished_job).
  - vm_compute. reflexivity.
  - simpl. auto.
Defined.

(** The job that ran for 60.25 seconds: 60.2 seconds (the float nearest to
    60.2), 60200000000.0 nanoseconds. *)
Example finished_job_duration :
  lookup finished_record ["event"; "duration_seconds"]
  = Some (VFloat (S754_finite false 8472396798990746 (-47)))
  /\ lookup finished_record ["event"; "duration"] = Some (f64 60200000000 0).
Proof. split; vm_compute; reflexivity. Qed.

(** ** Process count *)

(** What lines 249-251 leave in the record. *)
Definition proc_count_field (job : dict) (rec : value) : Prop :=
  (get job "nnodes" <> VNone -> get job "ntasks" <> VNone ->
   exists n,
     mul (get job "nnodes") (get job "ntasks") = Ok n
     /\ lookup rec ["job"; "proc"; "count"] = Some n)
  /\ (forall nnodes ntasks,
        get job "nnodes" = VInt nnodes -> get job "ntasks" = VInt ntasks ->
        lookup rec ["job"; "proc"; "count"] = Some (VInt (nnodes * ntasks)))
  /\ (get job "nnodes" = VNone \/ get job "ntasks" = VNone ->
      lookup rec ["job"; "proc"; "count"] = None).

Lemma job_record_proc_count env qt job rec :
  job_record env qt job = Ok rec -> proc_count_field job rec.
Proof.
  intros H. destruct (job_record_stages _ _ _ _ H).
  assert (Hgen : get job "nnodes" <> VNone -> get job "ntasks" <> VNone ->
    exists n, mul (get job "nnodes") (get job "ntasks") = Ok n
              /\ lookup rec ["job"; "proc"; "count"] = Some n).
  { intros Hn Ht. back. eapply set_proc_count_present; eassumption. }
  split; [exact Hgen|]. split.
  - intros nnodes ntasks Hn Ht.
    destruct Hgen as (n & Hmul & Hl);
      [rewrite Hn; discriminate | rewrite Ht; discriminate |].
    rewrite Hn, Ht in Hmul. cbn [mul as_num arith] in Hmul.
    injection Hmul as <-. exact Hl.
  - intros Habs.
    rewrite set_proc_count_absent in H_proc by tauto.
    injection H_proc as <-.
    back. reflexivity.
Qed.

(** C6.  For every job with both [nnodes] and [ntasks], the record has
    [job.proc.count = nnodes * ntasks]; when either is absent the record
    has no such field. *)
Theorem proc_count_is_product env qt jobs recs job :
  create_job_dicts env qt jobs = Ok recs -> In job jobs ->
  exists rec,
    In rec recs /\ job_record env qt job = Ok rec /\ proc_count_field job rec.
Proof.
  exact (in_output proc_count_field env qt jobs recs job
           (job_record_proc_count env qt)).
Qed.

Lemma proc_count_is_product_witness :
  exists rec,
    In rec example_records
    /\ job_record example_env [] finished_job = Ok rec
    /\ proc_count_field finished_job rec.
Proof.
  apply (proc_count_is_product example_env [] example_jobs
           example_records finished_job).
  - vm_compute. reflexivity.
  - simpl. auto.
Defined.

(** ** Outcome *)



Lemma job_record_unknown_result env qt job c :
  get job "result" = VInt c -> ~ In c [1; 2; 4; 8] ->
  job_record env qt job = Raise KeyError.
Proof.
  intros Hc Hout. unfold job_record.
  rewrite new_record_eq. cbn [bind].
  destruct (copy_fields_ok job) as [copied ->]. cbn [bind].
  unfold set_outcome. rewrite Hc. cbn [not_none is_none negb].
  rewrite (outcome_not_found _ Hout). reflexivity.
Qed.



Example outcome_of_finished_job :
  job_record example_env [] finished_job = Ok finished_record
  /\ lookup finished_record ["event"; "outcome"] = Some (VStr "COMPLETED").
Proof. split; vm_compute; reflexivity. Qed.

Example outcome_of_unknown_result :
  job_record example_env [] unknown_result_job = Raise KeyError.
Proof. vm_compute. reflexivity. Qed.

(** C10.  A single job with an integer result code outside 1, 2, 4, 8
    makes [create_job_dicts] raise, so the run has no record at all; the
    exception is the [KeyError] of that job when the jobs before it are
    mapped without error. *)
Theorem unknown_result_aborts_batch env qt jobs job c :
  In job jobs -> get job "result" = VInt c -> ~ In c [1; 2; 4; 8] ->
  (exists e, create_job_dicts env qt jobs = Raise e)
  /\ (forall pre post,
        jobs = (pre ++ job :: post)%list ->
        Forall (fun j => exists rec, job_record env qt j = Ok rec) pre ->
        create_job_dicts env qt jobs = Raise KeyError).
Proof.
  intros Hin Hc Hout.
  pose proof (job_record_unknown_result env qt job c Hc Hout) as Hraise.
  split.
  - destruct (map_result_raises _ _ _ _ Hin Hraise) as [e He].
    exists e. unfold create_job_dicts. rewrite He. reflexivity.
  - intros pre post -> Hpre. unfold create_job_dicts.
    rewrite (map_result_raise _ pre job post KeyError Hpre Hraise).
    reflexivity.
Qed.

Lemma unknown_result_aborts_batch_witness :
  (exists e,
     create_job_dicts example_env []
       [finished_job; unknown_result_job; cancelled_job] = Raise e)
  /\ (forall pre post,
        [finished_job; unknown_result_job; cancelled_job]
        = (pre ++ unknown_result_job :: post)%list ->
        Forall (fun j => exists rec, job_record example_env [] j = Ok rec)
               pre ->
        create_job_dicts example_env []
          [finished_job; unknown_result_job; cancelled_job] = Raise KeyError).
Proof.
  apply (unknown_result_aborts_batch example_env []
           [finished_job; unknown_result_job; cancelled_job]
           unknown_result_job 3).
  - simpl. auto.
  - reflexivity.
  - simpl. intros [H|[H|[H|[H|[]]]]]; discriminate.
Defined.

Example unknown_result_aborts_example :
  create_job_dicts example_env []
    [finished_job; unknown_result_job; cancelled_job] = Raise KeyError.
Proof. vm_compute. reflexivity. Qed.

(** ** Identity *)


Lemma stages_before_identity qt job copied with_outcome with_queue :
  copy_fields job empty_record = Ok copied ->
  set_outcome job copied = Ok with_outcome ->
  set_queue_maxtimelimit qt with_outcome = Ok with_queue ->
  lookup with_queue ["user"; "id"] = Some (get job "userid")
  /\ lookup with_queue ["group"] = Some (VDict []).
Proof.
  intros H_copy H_outcome H_queue. split.
  - back.
    pose proof (copy_fields_spec _ _ _ H_copy) as Hall.
    rewrite Forall_forall in Hall.
    apply (Hall (["user"; "id"], "userid")). simpl. auto.
  - back. reflexivity.
Qed.




(** User 4242 is unknown: the name is the text of the number. *)
Example unknown_user_record :
  lookup cancelled_record ["user"; "name"] = Some (VStr "4242")
  /\ lookup cancelled_record ["group"; "id"] = Some (VStr "")
  /\ lookup cancelled_record ["group"; "name"] = Some (VStr "").
Proof. repeat split. Qed.

(** ** Order of the output *)

(** C2, at the input of the claim.  The jobs with submit times 30, 10,
    none and 20 are all mapped; their sort keys are 30.0, 10.0, the string
    ["0.0"] and 20.0; a string and a float do not compare, and
    [create_job_dicts] raises [TypeError] instead of returning the records
    in the order none, 10, 20, 30. *)
Theorem missing_submit_time_breaks_sort :
  map_result (job_record example_env []) unsorted_jobs = Ok unsorted_records
  /\ map_result sort_key unsorted_records
     = Ok [f64 30 0; f64 10 0; VStr "0.0"; f64 20 0]
  /\ py_lt (VStr "0.0") (f64 10 0) = Raise TypeError
  /\ create_job_dicts example_env [] unsorted_jobs = Raise TypeError.
Proof. repeat split; vm_compute; reflexivity. Qed.

(** Without the job that has no submit time, the records come out in the
    order 10, 20, 30. *)
Example sorted_by_submit_time :
  match create_job_dicts example_env []
          [ job_submitted 1 (Some 30); job_submitted 2 (Some 10);
            job_submitted 4 (Some 20) ] with
  | Ok recs => map (fun rec => lookup rec ["job"; "id"]) recs
  | Raise _ => []
  end
  = [Some (VInt 2); Some (VInt 4); Some (VInt 1)].
Proof. vm_compute. reflexivity. Qed.

End Properties.

(* ===================================================================== *)
(** * Properties of a run *)
(* ===================================================================== *)

Module Run.
Import Py PyFacts Exporter ExporterFacts Fixtures.
Local Open Scope proc_scope.

Definition zero : value := VFloat (S754_zero false).

Definition parse_error : string :=
  "could not extract timestamp from Flux job log file".

(** ** Traces *)

Lemma queried_app tr tr' :
  queried (tr ++ tr') = (queried tr ++ queried tr')%list.
Proof.
  induction tr as [|e tr IH]; simpl; [reflexivity|].
  destruct e; simpl; rewrite IH; reflexivity.
Qed.

Lemma for_each_lift {A B} (f : A -> result B) l :
  for_each (fun x => lift (f x)) l = lift (map_result f l).
Proof.
  induction l as [|x l IH]; simpl; [reflexivity|].
  destruct (f x) as [y|e]; simpl; [|reflexivity].
  rewrite IH. destruct (map_result f l); reflexivity.
Qed.

Lemma for_each_stdout_queried l :
  queried (trace (for_each (fun job => emit (Stdout job)) l)) = [].
Proof.
  induction l as [|x l IH]; simpl; [reflexivity|].
  destruct (for_each (fun job => emit (Stdout job)) l) as [tr [ys|n|e]];
    simpl in *; rewrite ?app_nil_r; assumption.
Qed.

(** ** The first run *)


Lemma main_queried w since :
  queried (trace (main w since))
  = queried (trace (fetch_new_jobs w []
                      match since with Some z => VInt z | None => VNone end)).
Proof.
  unfold main.
  destruct (fetch_new_jobs w [] _) as [tr [[qt jobs]|n|e]];
    cbn [pbind trace fst]; try reflexivity.
  destruct (create_job_dicts (env w) qt jobs) as [recs|e];
    cbn [lift pbind app]; [|rewrite app_nil_r; reflexivity].
  pose proof (for_each_stdout_queried recs) as Hq.
  destruct (for_each (fun job => emit (Stdout job)) recs) as [tr' [ys|n|e]];
    cbn [pbind ret trace fst] in *;
    rewrite ?app_nil_r, queried_app, Hq, app_nil_r; reflexivity.
Qed.



(** The first run on the sample instance asks for the jobs since 0.0, gets
    both, and prints two records. *)
Example first_run :
  queried (trace (main (example_world FileNotFound None) None)) = [zero]
  /\ jobs_since zero = example_jobs
  /\ List.length (printed (trace (main (example_world FileNotFound None) None)))
     = 2%nat
  /\ result_of (main (example_world FileNotFound None) None) = Returns tt.
Proof. repeat split; vm_compute; reflexivity. Qed.

(** ** A timestamp file that holds no number *)

(** C7 (as amended).  When no [--since] is given, the connection to Flux
    succeeds, and the timestamp file exists but its stripped content does
    not parse as a float, the run logs one error and exits with status 1;
    it prints no record and makes no query. *)
Theorem corrupt_checkpoint_aborts w text :
  connect w = None ->
  timestamp_file w = Content text ->
  float_of_text w text = None ->
  main w None = ([Syslog parse_error], Exits 1)
  /\ printed (trace (main w None)) = []
  /\ queried (trace (main w None)) = [].
Proof.
  intros Hconn Hfile Hparse.
  assert (Hmain : main w None = ([Syslog parse_error], Exits 1)).
  { unfold main, fetch_new_jobs, read_timestamp.
    rewrite Hconn, Hfile, Hparse. reflexivity. }
  rewrite Hmain. repeat split.
Qed.

Lemma corrupt_checkpoint_aborts_witness :
  main (example_world (Content "not-a-number") None) None
  = ([Syslog parse_error], Exits 1)
  /\ printed (trace (main (example_world (Content "not-a-number") None) None))
     = []
  /\ queried (trace (main (example_world (Content "not-a-number") None) None))
     = [].
Proof.
  apply (corrupt_checkpoint_aborts
           (example_world (Content "not-a-number") None) "not-a-number");
    reflexivity.
Defined.

(** C7 fails as stated.  The file holds [not-a-number], which is no float.
    With [--since 1700000100] the file is not read: the run queries the
    jobs since then, prints the record of the one job it gets, and returns
    without logging.  With no [--since] and Flux down, the run exits with
    status 0 before it reads the file. *)
Lemma corrupt_checkpoint_not_always_fatal :
  ascii_float "not-a-number" = None
  /\ main (example_world (Content "not-a-number") None) (Some 1700000100)
     = ([JobListInactive (VInt 1700000100); Stdout enriched_record],
        Returns tt)
  /\ main (example_world (Content "not-a-number") (Some "down")) None
     = ([Syslog "Could not connect to Flux instance; Flux may be down";
         Syslog "exception message: down"],
        Exits 0).
Proof. repeat split; vm_compute; reflexivity. Qed.

End Run.

(* ===================================================================== *)
(** * Further properties of the record mapping *)
(* ===================================================================== *)

Module Mapping.
Import Py PyFacts Exporter ExporterFacts Fixtures Properties.
Local Open Scope py_scope.

(** ** Shape of a record *)

(** A record whose [k1] is a dict that has [k2]. *)
Lemma lookup2_inv r k1 k2 v :
  lookup r [k1; k2] = Some v ->
  exists d sub, r = VDict d /\ dict_get d k1 = Some (VDict sub)
                /\ dict_get sub k2 = Some v.
Proof.
  destruct r; simpl; try discriminate.
  destruct (dict_get d k1) as [sub|] eqn:E1; [|discriminate].
  destruct sub; simpl; try discriminate.
  destruct (dict_get d0 k2) eqn:E2; [|discriminate].
  intros H; injection H as ->. eauto 6.
Qed.

(** What the copies leave at a copied path, read after the blocks that
    follow. *)
Lemma copied_value job copied path key :
  copy_fields job empty_record = Ok copied ->
  In (path, key) direct_copies ->
  lookup copied path = Some (get job key).
Proof.
  intros H Hin. pose proof (copy_fields_spec _ _ _ H) as Hall.
  rewrite Forall_forall in Hall. exact (Hall _ Hin).
Qed.

(** ** The time limit of the queue *)

Lemma set_queue_spec qt rec rec' q :
  lookup rec ["job"; "queue"] = Some q ->
  set_queue_maxtimelimit qt rec = Ok rec' ->
  (q = VNone -> rec' = rec)
  /\ (q <> VNone ->
      exists limit,
        get_any_key qt q (VStr "UNKNOWN") = Ok limit
        /\ lookup rec' ["job"; "queue_maxtimelimit"] = Some limit).
Proof.
  intros Hq H. pose proof (getitem2_of_lookup _ _ _ _ Hq) as Hget.
  destruct (lookup2_inv _ _ _ _ Hq) as (d & j & -> & Hj & Hjq).
  unfold set_queue_maxtimelimit in H. cbn [get_method bind] in H.
  unfold get_default in H. rewrite Hj in H. cbn [get_method bind] in H.
  unfold get_default in H. rewrite Hjq in H.
  split.
  - intros ->. cbn in H. injection H as <-. reflexivity.
  - intros Hnn. apply not_none_true in Hnn. rewrite Hnn in H.
    rewrite Hget in H. cbn [bind] in H. bind_inv H.
    exists r. split; [assumption|].
    exact (lookup_set_path_same ["job"; "queue_maxtimelimit"] _ _ _
             ltac:(discriminate) Hrest).
Qed.

(** What lines 201-205 leave in the record. *)
Definition queue_limit_field (qt job : dict) (rec : value) : Prop :=
  (get job "queue" = VNone ->
   lookup rec ["job"; "queue_maxtimelimit"] = None)
  /\ (forall q, get job "queue" = VStr q ->
        lookup rec ["job"; "queue_maxtimelimit"]
        = Some (get_default qt q (VStr "UNKNOWN")))
  /\ (forall q, get job "queue" = VStr q -> dict_get qt q = None ->
        lookup rec ["job"; "queue_maxtimelimit"] = Some (VStr "UNKNOWN")).

Lemma job_record_queue_limit env qt job rec :
  job_record env qt job = Ok rec -> queue_limit_field qt job rec.
Proof.
  intros H. destruct (job_record_stages _ _ _ _ H).
  assert (Hq : lookup with_outcome ["job"; "queue"] = Some (get job "queue")).
  { back. apply (copied_value _ _ _ _ H_copy). simpl. tauto. }
  destruct (set_queue_spec _ _ _ _ Hq H_queue) as [Hnone Hsome].
  assert (Hstr : forall q, get job "queue" = VStr q ->
            lookup rec ["job"; "queue_maxtimelimit"]
            = Some (get_default qt q (VStr "UNKNOWN"))).
  { intros q Hjq. back.
    destruct Hsome as (limit & Hlimit & Hl); [rewrite Hjq; discriminate|].
    rewrite Hjq in Hlimit. cbn in Hlimit. injection Hlimit as <-. exact Hl. }
  split; [|split].
  - intros Hjq. back. rewrite (Hnone Hjq). back. reflexivity.
  - exact Hstr.
  - intros q Hjq Hmiss. rewrite (Hstr q Hjq).
    unfold get_default. rewrite Hmiss. reflexivity.
Qed.

(** X1.  The record of a job has [job.queue_maxtimelimit] exactly when the
    job has a queue: for a queue named by a string it is the entry of the
    queue in the table of limits, and the string UNKNOWN when the table
    has no such queue. *)
Theorem queue_limit_from_table env qt jobs recs job :
  create_job_dicts env qt jobs = Ok recs -> In job jobs ->
  exists rec,
    In rec recs /\ job_record env qt job = Ok rec
    /\ queue_limit_field qt job rec.
Proof.
  exact (in_output (queue_limit_field qt) env qt jobs recs job
           (job_record_queue_limit env qt)).
Qed.

(** A job in the queue [debug], of which the table knows nothing. *)
Definition debug_job : dict :=
  [ ("id", VInt 10); ("queue", VStr "debug");
    ("t_submit", f64 3400000007 (-1)) ].

Definition debug_record : value :=
  Eval vm_compute in
    match job_record example_env [("batch", VStr "8h")] debug_job with
    | Ok rec => rec
    | Raise _ => VNone
    end.

Lemma queue_limit_from_table_witness :
  exists rec,
    In rec [debug_record]
    /\ job_record example_env [("batch", VStr "8h")] debug_job = Ok rec
    /\ queue_limit_field [("batch", VStr "8h")] debug_job rec.
Proof.
  apply (queue_limit_from_table example_env [("batch", VStr "8h")]
           [debug_job] [debug_record] debug_job).
  - vm_compute. reflexivity.
  - simpl. auto.
Defined.

(** ** Identity *)




(** What the identity block leaves when it completes on a record with a
    user id. *)
Lemma set_identity_spec env rec rec' uid :
  lookup rec ["user"; "id"] = Some uid -> uid <> VNone ->
  set_identity env rec = Ok rec' ->
  exists name gid gname,
    get_username env uid = Ok name
    /\ get_gid env uid = Ok gid
    /\ get_groupname env gid = Ok gname
    /\ lookup rec' ["user"; "name"] = Some name
    /\ lookup rec' ["group"; "id"] = Some gid
    /\ lookup rec' ["group"; "name"] = Some gname.
Proof.
  intros Huid Hnn H.
  destruct (lookup2_inv _ _ _ _ Huid) as (d & u & -> & Hu & Hui).
  unfold set_identity in H. cbn [get_method bind] in H.
  unfold get_default in H. rewrite Hu in H. cbn [get_method bind] in H.
  unfold get_default in H. rewrite Hui in H.
  apply not_none_true in Hnn. rewrite Hnn in H.
  rewrite (getitem2_of_lookup _ _ _ _ Huid) in H. cbn [bind] in H.
  apply bind_ok in H. destruct H as (name & Hname & H).
  apply bind_ok in H. destruct H as (rec1 & Hset1 & H).
  apply bind_ok in H. destruct H as (uid' & Huid' & H).
  assert (uid' = uid).
  { apply getitem2_lookup in Huid'. revert Huid'. back.
    rewrite Huid. congruence. }
  subst uid'.
  apply bind_ok in H. destruct H as (gid & Hgid & H).
  apply bind_ok in H. destruct H as (rec2 & Hset2 & H).
  apply bind_ok in H. destruct H as (gid' & Hgid' & H).
  apply (getitem2_after_set _ _ _ _ _ _ Hset2) in Hgid'. subst gid'.
  apply bind_ok in H. destruct H as (gname & Hgname & Hset3).
  exists name, gid, gname. repeat split; try assumption.
  - back. exact (lookup_set_path_same ["user"; "name"] _ _ _
                   ltac:(discriminate) Hset1).
  - back. exact (lookup_set_path_same ["group"; "id"] _ _ _
                   ltac:(discriminate) Hset2).
  - exact (lookup_set_path_same ["group"; "name"] _ _ _
             ltac:(discriminate) Hset3).
Qed.

(** What lines 207-211 leave in the record of a job. *)
Definition identity_fields (env : Env) (job : dict) (rec : value) : Prop :=
  (get job "userid" = VNone ->
   lookup rec ["user"; "name"] = None
   /\ lookup rec ["group"; "id"] = None
   /\ lookup rec ["group"; "name"] = None)
  /\ (forall p, pwd_getpwuid env (get job "userid") = Ok p ->
        get job "userid" <> VNone ->
        lookup rec ["user"; "name"] = Some (VStr (pw_name p))
        /\ lookup rec ["group"; "id"] = Some (VInt (pw_gid p))
        /\ id_t_min <= pw_gid p <= id_t_max
        /\ lookup rec ["group"; "name"]
           = Some (VStr match group_db env (pw_gid p) with
                        | Some n => n
                        | None => ""
                        end)).

Lemma set_identity_absent env rec :
  lookup rec ["user"; "id"] = Some VNone -> set_identity env rec = Ok rec.
Proof.
  intros Huid.
  destruct (lookup2_inv _ _ _ _ Huid) as (d & u & -> & Hu & Hui).
  unfold set_identity. cbn [get_method bind].
  unfold get_default. rewrite Hu. cbn [get_method bind].
  unfold get_default. rewrite Hui. reflexivity.
Qed.

Lemma job_record_identity env qt job rec :
  job_record env qt job = Ok rec -> identity_fields env job rec.
Proof.
  intros H. destruct (job_record_stages _ _ _ _ H).
  destruct (stages_before_identity _ _ _ _ _ H_copy H_outcome H_queue)
    as [Huid _].
  split.
  - intros Hnone. rewrite Hnone in Huid.
    rewrite (set_identity_absent _ _ Huid) in H_identity.
    injection H_identity as <-.
    repeat split; back; reflexivity.
  - intros p Hp Hnn.
    destruct (set_identity_spec _ _ _ _ Huid Hnn H_identity)
      as (name & gid & gname & Hname & Hgid & Hgname & Hl1 & Hl2 & Hl3).
    unfold get_username in Hname. rewrite Hp in Hname.
    cbn in Hname. injection Hname as <-.
    unfold get_gid in Hgid. rewrite Hp in Hgid.
    cbn in Hgid. injection Hgid as <-.
    unfold get_groupname, grp_getgrgid in Hgname. cbn [as_int] in Hgname.
    destruct ((pw_gid p <? id_t_min) || (id_t_max <? pw_gid p)) eqn:Hr;
      [discriminate|].
    apply orb_false_elim in Hr. destruct Hr as [Hlo Hhi].
    apply Z.ltb_ge in Hlo, Hhi.
    assert (Hg : gname = VStr match group_db env (pw_gid p) with
                              | Some n => n
                              | None => ""
                              end).
    { destruct (group_db env (pw_gid p)); cbn in Hgname;
        injection Hgname as <-; reflexivity. }
    subst gname.
    repeat split; try assumption; back; assumption.
Qed.

(** X3.  A job without a user id gets no [user.name], [group.id] or
    [group.name].  For a user that the password database knows, the record
    has the name and the primary gid of the entry, and the name of that
    group, or the empty string when the group database has no such group;
    a record is only produced when that gid is in the range of a gid. *)
Theorem identity_from_databases env qt jobs recs job :
  create_job_dicts env qt jobs = Ok recs -> In job jobs ->
  exists rec,
    In rec recs /\ job_record env qt job = Ok rec
    /\ identity_fields env job rec.
Proof.
  exact (in_output (identity_fields env) env qt jobs recs job
           (job_record_identity env qt)).
Qed.

Lemma identity_from_databases_witness :
  exists rec,
    In rec example_records
    /\ job_record example_env [] finished_job = Ok rec
    /\ identity_fields example_env finished_job rec.
Proof.
  apply (identity_from_databases example_env [] example_jobs
           example_records finished_job).
  - vm_compute. reflexivity.
  - simpl. auto.
Defined.

(** The record of the job of [alice]. *)
Example known_user_record :
  lookup finished_record ["user"; "name"] = Some (VStr "alice")
  /\ lookup finished_record ["group"; "id"] = Some (VInt 100)
  /\ lookup finished_record ["group"; "name"] = Some (VStr "users").
Proof. repeat split. Qed.

(** ** Timestamps as text *)

(** The four blocks of lines 214-231, one after the other. *)
Lemma set_times_blocks job rec rec' :
  set_times job rec = Ok rec' ->
  exists r1 r2 r3,
    (if not_none (get job "t_submit") then
       t <- getitem (VDict job) "t_submit" ;;
       r <- set_path rec ["job"; "submittime_epoch"] t ;;
       t <- getitem (VDict job) "t_submit" ;;
       iso <- Datetime.iso_utc t ;;
       set_path r ["job"; "submittime"] iso
     else Ok rec) = Ok r1
    /\ (if not_none (get job "t_run") then
          t <- getitem (VDict job) "t_run" ;;
          iso <- Datetime.iso_utc t ;;
          set_path r1 ["event"; "start"] iso
        else Ok r1) = Ok r2
    /\ (if not_none (get job "t_inactive") then
          t <- getitem (VDict job) "t_inactive" ;;
          iso <- Datetime.iso_utc t ;;
          set_path r2 ["event"; "end"] iso
        else Ok r2) = Ok r3
    /\ (if not_none (get job "expiration") then
          iso <- Datetime.iso_utc (get job "expiration") ;;
          set_path r3 ["job"; "timelimit"] iso
        else Ok r3) = Ok rec'.
Proof.
  unfold set_times. intros H.
  apply bind_ok in H. destruct H as (r1 & H1 & H).
  apply bind_ok in H. destruct H as (r2 & H2 & H).
  apply bind_ok in H. destruct H as (r3 & H3 & H4).
  exists r1, r2, r3. auto.
Qed.

(** A field that holds the ISO text of a timestamp of the job, when the
    job has it. *)
Definition iso_field (job : dict) (key : string) (rec : value)
  (path : list string) : Prop :=
  (get job key <> VNone ->
   exists iso, Datetime.iso_utc (get job key) = Ok iso
               /\ lookup rec path = Some iso)
  /\ (get job key = VNone -> lookup rec path = None).

(** What lines 214-231 leave in the record. *)
Definition time_fields (job : dict) (rec : value) : Prop :=
  iso_field job "t_submit" rec ["job"; "submittime"]
  /\ iso_field job "t_run" rec ["event"; "start"]
  /\ iso_field job "t_inactive" rec ["event"; "end"]
  /\ iso_field job "expiration" rec ["job"; "timelimit"]
  /\ (get job "t_submit" <> VNone ->
      lookup rec ["job"; "submittime_epoch"] = Some (get job "t_submit"))
  /\ (get job "t_submit" = VNone ->
      lookup rec ["job"; "submittime_epoch"] = None).

(** One block: it writes the ISO text of [t] at [path], or nothing. *)
Lemma iso_block job key t (r r' : value) path :
  path <> [] ->
  (t = get job key) ->
  (if not_none (get job key) then
     iso <- Datetime.iso_utc t ;; set_path r path iso
   else Ok r) = Ok r' ->
  (get job key <> VNone ->
   exists iso, Datetime.iso_utc (get job key) = Ok iso
               /\ lookup r' path = Some iso)
  /\ (get job key = VNone -> r' = r).
Proof.
  intros Hp -> H. split.
  - intros Hnn. apply not_none_true in Hnn. rewrite Hnn in H.
    apply bind_ok in H. destruct H as (iso & Hiso & Hset).
    exists iso. split; [assumption|].
    eapply lookup_set_path_same; eassumption.
  - intros Hn. rewrite Hn in H. injection H as <-. reflexivity.
Qed.

Lemma getitem_get job key :
  get job key <> VNone -> getitem (VDict job) key = Ok (get job key).
Proof.
  unfold get, get_default. simpl.
  destruct (dict_get job key); [reflexivity | congruence].
Qed.

Lemma not_none_dec v : {v = VNone} + {v <> VNone}.
Proof. destruct v; [left; reflexivity | right; discriminate ..]. Qed.

Lemma job_record_times env qt job rec :
  job_record env qt job = Ok rec -> time_fields job rec.
Proof.
  intros H. destruct (job_record_stages _ _ _ _ H).
  destruct (set_times_blocks _ _ _ H_times) as (r1 & r2 & r3 & B1 & B2 & B3 & B4).
  (* the blocks, each in the form of [iso_block] *)
  assert (B1' : exists r0,
            (get job "t_submit" <> VNone ->
             set_path with_identity ["job"; "submittime_epoch"]
                      (get job "t_submit") = Ok r0)
            /\ (get job "t_submit" = VNone -> r0 = with_identity)
            /\ (if not_none (get job "t_submit") then
                  iso <- Datetime.iso_utc (get job "t_submit") ;;
                  set_path r0 ["job"; "submittime"] iso
                else Ok r0) = Ok r1).
  { destruct (not_none_dec (get job "t_submit")) as [Hn|Hnn].
    - exists with_identity. rewrite Hn in *. cbn in B1.
      repeat split; [congruence | exact B1].
    - pose proof Hnn as Hb. apply not_none_true in Hb. rewrite Hb in *.
      rewrite (getitem_get _ _ Hnn) in B1. cbn [bind] in B1.
      apply bind_ok in B1. destruct B1 as (r0 & Hset & B1).
      exists r0. repeat split; [auto | congruence | exact B1]. }
  destruct B1' as (r0 & Hepoch & Hr0 & B1').
  assert (B2' : (if not_none (get job "t_run") then
                   iso <- Datetime.iso_utc (get job "t_run") ;;
                   set_path r1 ["event"; "start"] iso
                 else Ok r1) = Ok r2).
  { destruct (not_none_dec (get job "t_run")) as [Hn|Hnn].
    - rewrite Hn in *. exact B2.
    - rewrite (getitem_get _ _ Hnn) in B2. exact B2. }
  assert (B3' : (if not_none (get job "t_inactive") then
                   iso <- Datetime.iso_utc (get job "t_inactive") ;;
                   set_path r2 ["event"; "end"] iso
                 else Ok r2) = Ok r3).
  { destruct (not_none_dec (get job "t_inactive")) as [Hn|Hnn].
    - rewrite Hn in *. exact B3.
    - rewrite (getitem_get _ _ Hnn) in B3. exact B3. }
  destruct (iso_block job "t_submit" _ r0 r1 ["job"; "submittime"]
              ltac:(discriminate) eq_refl B1') as [S1 N1].
  destruct (iso_block job "t_run" _ r1 r2 ["event"; "start"]
              ltac:(discriminate) eq_refl B2') as [S2 N2].
  destruct (iso_block job "t_inactive" _ r2 r3 ["event"; "end"]
              ltac:(discriminate) eq_refl B3') as [S3 N3].
  destruct (iso_block job "expiration" _ r3 with_times ["job"; "timelimit"]
              ltac:(discriminate) eq_refl B4) as [S4 N4].
  (* what each block leaves alone *)
  assert (F1 : forall q, untouched [["job"; "submittime"]] q = true ->
            lookup r1 q = lookup r0 q).
  { intros q Hq. clear -B1' Hq. frame B1' Hq. }
  assert (F0 : forall q, untouched [["job"; "submittime_epoch"]] q = true ->
            lookup r0 q = lookup with_identity q).
  { intros q Hq. destruct (not_none_dec (get job "t_submit")) as [Hn|Hnn].
    - rewrite (Hr0 Hn). reflexivity.
    - specialize (Hepoch Hnn). clear -Hepoch Hq. frame Hepoch Hq. }
  assert (F2 : forall q, untouched [["event"; "start"]] q = true ->
            lookup r2 q = lookup r1 q).
  { intros q Hq. clear -B2' Hq. frame B2' Hq. }
  assert (F3 : forall q, untouched [["event"; "end"]] q = true ->
            lookup r3 q = lookup r2 q).
  { intros q Hq. clear -B3' Hq. frame B3' Hq. }
  assert (F4 : forall q, untouched [["job"; "timelimit"]] q = true ->
            lookup with_times q = lookup r3 q).
  { intros q Hq. clear -B4 Hq. frame B4 Hq. }
  (* the record before the block has none of the five fields *)
  assert (Hbefore : forall q,
            untouched (copy_fields_writes ++ set_outcome_writes
                       ++ set_queue_writes ++ set_identity_writes) q = true ->
            lookup empty_record q = None ->
            lookup with_identity q = None).
  { intros q Hq Hnone. unfold untouched in Hq.
    rewrite !forallb_app in Hq.
    apply andb_prop in Hq. destruct Hq as [Hq1 Hq].
    apply andb_prop in Hq. destruct Hq as [Hq2 Hq].
    apply andb_prop in Hq. destruct Hq as [Hq3 Hq4].
    rewrite (set_identity_frame _ _ _ q H_identity) by assumption.
    rewrite (set_queue_frame _ _ _ q H_queue) by assumption.
    rewrite (set_outcome_frame _ _ _ q H_outcome) by assumption.
    rewrite (copy_fields_frame _ _ _ q H_copy) by assumption.
    exact Hnone. }
  unfold time_fields, iso_field.
  repeat split.
  - intros Hnn. destruct (S1 Hnn) as (iso & Hiso & Hl). exists iso.
    split; [assumption|]. back.
    rewrite F4, F3, F2 by reflexivity. exact Hl.
  - intros Hn. back. rewrite F4, F3, F2 by reflexivity.
    rewrite (N1 Hn), F0 by reflexivity. apply Hbefore; reflexivity.
  - intros Hnn. destruct (S2 Hnn) as (iso & Hiso & Hl). exists iso.
    split; [assumption|]. back.
    rewrite F4, F3 by reflexivity. exact Hl.
  - intros Hn. back. rewrite F4, F3 by reflexivity.
    rewrite (N2 Hn), F1, F0 by reflexivity. apply Hbefore; reflexivity.
  - intros Hnn. destruct (S3 Hnn) as (iso & Hiso & Hl). exists iso.
    split; [assumption|]. back.
    rewrite F4 by reflexivity. exact Hl.
  - intros Hn. back. rewrite F4 by reflexivity.
    rewrite (N3 Hn), F2, F1, F0 by reflexivity. apply Hbefore; reflexivity.
  - intros Hnn. destruct (S4 Hnn) as (iso & Hiso & Hl). exists iso.
    split; [assumption|]. back. exact Hl.
  - intros Hn. back.
    rewrite (N4 Hn), F3, F2, F1, F0 by reflexivity.
    apply Hbefore; reflexivity.
  - intros Hnn. back. rewrite F4, F3, F2, F1 by reflexivity.
    exact (lookup_set_path_same ["job"; "submittime_epoch"] _ _ _
             ltac:(discriminate) (Hepoch Hnn)).
  - intros Hn. back. rewrite F4, F3, F2, F1 by reflexivity.
    rewrite (Hr0 Hn). apply Hbefore; reflexivity.
Qed.

(** X4.  The record of a job has [job.submittime], [event.start],
    [event.end] and [job.timelimit] exactly when the job has [t_submit],
    [t_run], [t_inactive] and [expiration]; each holds the ISO 8601 text of
    its timestamp in UTC.  [job.submittime_epoch] holds [t_submit] itself,
    and is missing when the job has none. *)
Theorem timestamps_as_text env qt jobs recs job :
  create_job_dicts env qt jobs = Ok recs -> In job jobs ->
  exists rec,
    In rec recs /\ job_record env qt job = Ok rec /\ time_fields job rec.
Proof.
  exact (in_output time_fields env qt jobs recs job
           (job_record_times env qt)).
Qed.

Lemma timestamps_as_text_witness :
  exists rec,
    In rec example_records
    /\ job_record example_env [] finished_job = Ok rec
    /\ time_fields finished_job rec.
Proof.
  apply (timestamps_as_text example_env [] example_jobs
           example_records finished_job).
  - vm_compute. reflexivity.
  - simpl. auto.
Defined.

Example finished_job_times :
  lookup finished_record ["job"; "submittime"]
  = Some (VStr "2023-11-14T22:13:20.500000+00:00")
  /\ lookup finished_record ["event"; "start"]
     = Some (VStr "2023-11-14T22:14:20.500000+00:00")
  /\ lookup finished_record ["event"; "end"]
     = Some (VStr "2023-11-14T22:15:20.750000+00:00")
  /\ lookup finished_record ["job"; "timelimit"] = None.
Proof. repeat split. Qed.

(** ** A timestamp that cannot be converted *)

Definition timestamp_keys : list string :=
  ["t_submit"; "t_run"; "t_inactive"; "expiration"].

Lemma job_record_bad_timestamp env qt job key e0 :
  In key timestamp_keys ->
  get job key <> VNone ->
  Datetime.iso_utc (get job key) = Raise e0 ->
  exists e, job_record env qt job = Raise e.
Proof.
  intros Hkey Hnn Hbad.
  destruct (job_record env qt job) as [rec|e] eqn:H; [|eauto].
  exfalso.
  destruct (job_record_times _ _ _ _ H) as (T1 & T2 & T3 & T4 & _).
  simpl in Hkey.
  destruct Hkey as [<-|[<-|[<-|[<-|[]]]]];
    [destruct T1 as [T _] | destruct T2 as [T _]
     | destruct T3 as [T _] | destruct T4 as [T _]];
    destruct (T Hnn) as (iso & Hiso & _); congruence.
Qed.

(** X5.  A job whose [t_submit], [t_run], [t_inactive] or [expiration] is
    present but is no timestamp that [datetime] converts (a string, a NaN,
    a time outside the years 1 to 9999) makes [create_job_dicts] raise:
    the run has no record at all. *)
Theorem bad_timestamp_aborts_batch env qt jobs job key e0 :
  In job jobs -> In key timestamp_keys ->
  get job key <> VNone ->
  Datetime.iso_utc (get job key) = Raise e0 ->
  exists e, create_job_dicts env qt jobs = Raise e.
Proof.
  intros Hin Hkey Hnn Hbad.
  destruct (job_record_bad_timestamp env qt job key e0 Hkey Hnn Hbad)
    as [e He].
  destruct (map_result_raises _ _ _ _ Hin He) as [e' He'].
  exists e'. unfold create_job_dicts. rewrite He'. reflexivity.
Qed.

(** A job whose expiration lies in the year 33658. *)
Definition far_future_job : dict :=
  [ ("id", VInt 11); ("t_submit", f64 3400000001 (-1));
    ("expiration", VInt 1000000000000) ].

Lemma bad_timestamp_aborts_batch_witness :
  exists e,
    create_job_dicts example_env [] [finished_job; far_future_job] = Raise e.
Proof.
  apply (bad_timestamp_aborts_batch example_env []
           [finished_job; far_future_job] far_future_job "expiration"
           ValueError).
  - simpl. auto.
  - simpl. auto.
  - discriminate.
  - vm_compute. reflexivity.
Defined.

(** ** Exception fields *)

(** What lines 253-260 leave in the record. *)
Definition exception_fields (job : dict) (rec : value) : Prop :=
  (py_eq (get job "exception_occurred") (VBool true) = true ->
   lookup rec ["job"; "exception_type"]
   = (if is_none (get job "exception_type") then None
      else Some (get job "exception_type"))
   /\ lookup rec ["job"; "exception_note"]
      = (if is_none (get job "exception_note") then None
         else Some (get job "exception_note")))
  /\ (py_eq (get job "exception_occurred") (VBool true) = false ->
      lookup rec ["job"; "exception_type"] = None
      /\ lookup rec ["job"; "exception_note"] = None).

Lemma py_eq_true_not_none v :
  py_eq v (VBool true) = true -> not_none v = true.
Proof. destruct v; simpl; try discriminate; reflexivity. Qed.

Lemma job_record_exception env qt job rec :
  job_record env qt job = Ok rec -> exception_fields job rec.
Proof.
  intros H. destruct (job_record_stages _ _ _ _ H).
  assert (Hbefore : lookup with_proc ["job"; "exception_type"] = None
                    /\ lookup with_proc ["job"; "exception_note"] = None).
  { split; back; reflexivity. }
  destruct Hbefore as [Hbt Hbn].
  unfold set_exception in H_exception.
  split.
  - intros Hocc. rewrite (py_eq_true_not_none _ Hocc), Hocc in H_exception.
    cbn [andb] in H_exception.
    apply bind_ok in H_exception. destruct H_exception as (r1 & B1 & B2).
    split.
    + back.
      assert (Hr1 : lookup with_exception ["job"; "exception_type"]
                    = lookup r1 ["job"; "exception_type"]).
      { destruct (not_none (get job "exception_note"));
          [|injection B2 as <-; reflexivity].
        back. reflexivity. }
      rewrite Hr1.
      destruct (get job "exception_type") eqn:Et; cbn in B1 |- *;
        try (exact (lookup_set_path_same ["job"; "exception_type"] _ _ _
                      ltac:(discriminate) B1)).
      injection B1 as <-. exact Hbt.
    + back.
      assert (Hr1 : lookup r1 ["job"; "exception_note"] = None).
      { destruct (not_none (get job "exception_type"));
          [|injection B1 as <-; exact Hbn].
        back. reflexivity. }
      destruct (get job "exception_note") eqn:En; cbn in B2 |- *;
        try (exact (lookup_set_path_same ["job"; "exception_note"] _ _ _
                      ltac:(discriminate) B2)).
      injection B2 as <-. exact Hr1.
  - intros Hocc. rewrite Hocc, andb_false_r in H_exception.
    injection H_exception as <-. split; back; reflexivity.
Qed.

(** X6.  The record has [job.exception_type] and [job.exception_note] only
    for a job whose [exception_occurred] equals [True], and then each one
    that the job has; a job with no exception, or with the flag [False],
    gets neither, whatever type and note it carries. *)
Theorem exception_fields_need_flag env qt jobs recs job :
  create_job_dicts env qt jobs = Ok recs -> In job jobs ->
  exists rec,
    In rec recs /\ job_record env qt job = Ok rec
    /\ exception_fields job rec.
Proof.
  exact (in_output exception_fields env qt jobs recs job
           (job_record_exception env qt)).
Qed.

(** A job that was cancelled by an exception, and one that carries a type
    but no raised flag. *)
Definition failed_job : dict :=
  [ ("id", VInt 12); ("t_submit", f64 3400000011 (-1));
    ("exception_occurred", VBool true);
    ("exception_type", VStr "cancel") ].

Definition unflagged_job : dict :=
  [ ("id", VInt 13); ("t_submit", f64 3400000013 (-1));
    ("exception_occurred", VBool false);
    ("exception_type", VStr "cancel"); ("exception_note", VStr "by user") ].

Definition exception_records : list value :=
  Eval vm_compute in
    match create_job_dicts example_env [] [failed_job; unflagged_job] with
    | Ok recs => recs
    | Raise _ => []
    end.

Lemma exception_fields_need_flag_witness :
  exists rec,
    In rec exception_records
    /\ job_record example_env [] unflagged_job = Ok rec
    /\ exception_fields unflagged_job rec.
Proof.
  apply (exception_fields_need_flag example_env []
           [failed_job; unflagged_job] exception_records unflagged_job).
  - vm_compute. reflexivity.
  - simpl. auto.
Defined.

Example exception_records_fields :
  map (fun rec => (lookup rec ["job"; "id"],
                   lookup rec ["job"; "exception_type"],
                   lookup rec ["job"; "exception_note"]))
      exception_records
  = [ (Some (VInt 12), Some (VStr "cancel"), None);
      (Some (VInt 13), None, None) ].
Proof. reflexivity. Qed.

(** ** What every record carries *)

(** The tags of lines 167-169 and 263. *)
Definition tags (rec : value) : Prop :=
  lookup rec ["event"; "dataset"] = Some (VStr "flux.joblog")
  /\ lookup rec ["schema"; "version_number"]
     = Some (VFloat (S754_finite false 4953959590107546 (-51)))
  /\ lookup rec ["job"; "scheduler"] = Some (VStr "flux").

Lemma job_record_tags env qt job rec :
  job_record env qt job = Ok rec -> tags rec.
Proof.
  intros H. destruct (job_record_stages _ _ _ _ H).
  repeat split; try (back; reflexivity).
  exact (lookup_set_path_same ["job"; "scheduler"] _ _ _
           ltac:(discriminate) H_scheduler).
Qed.

(** X7.  Every record that [create_job_dicts] returns carries the dataset
    tag [flux.joblog], the schema version 2.2 and the scheduler name
    [flux]: no attribute of a job can overwrite them. *)
Theorem every_record_tagged env qt jobs recs rec :
  create_job_dicts env qt jobs = Ok recs -> In rec recs -> tags rec.
Proof.
  intros H Hin.
  destruct (job_of_record _ _ _ _ _ H Hin) as (job & _ & Hjob).
  exact (job_record_tags _ _ _ _ Hjob).
Qed.

Lemma every_record_tagged_witness : tags cancelled_record.
Proof.
  apply (every_record_tagged example_env [] example_jobs example_records).
  - vm_compute. reflexivity.
  - simpl. auto.
Defined.

(** ** One record for each job *)

(** X8.  When [create_job_dicts] returns, its result is a rearrangement of
    the records of the jobs, one for each job: as many records as jobs,
    none dropped, none doubled. *)
Theorem one_record_per_job env qt jobs recs :
  create_job_dicts env qt jobs = Ok recs ->
  List.length recs = List.length jobs
  /\ exists mapped,
       Forall2 (fun job rec => job_record env qt job = Ok rec) jobs mapped
       /\ Permutation mapped recs.
Proof.
  unfold create_job_dicts. intros H. bind_inv H.
  apply map_result_ok in Hstep. apply sorted_perm in Hrest.
  split.
  - rewrite <- (Permutation_length Hrest).
    symmetry. eapply Forall2_length. eassumption.
  - exists r. auto.
Qed.

Lemma one_record_per_job_witness :
  List.length example_records = List.length example_jobs
  /\ exists mapped,
       Forall2 (fun job rec => job_record example_env [] job = Ok rec)
               example_jobs mapped
       /\ Permutation mapped example_records.
Proof.
  apply (one_record_per_job example_env [] example_jobs example_records).
  vm_compute. reflexivity.
Defined.

(** ** Order of the output *)

(** Inserting after keys that are all the string ["0.0"] appends. *)
Lemma insert_unsubmitted {A} (x : A) l :
  Forall (fun p => fst p = VStr "0.0") l ->
  insert_by_key (VStr "0.0") x l = Ok (l ++ [(VStr "0.0", x)])%list.
Proof.
  induction 1 as [|[k y] l Hk _ IH]; [reflexivity|].
  cbn [fst] in Hk. subst k. cbn [insert_by_key].
  change (py_lt (VStr "0.0") (VStr "0.0")) with (Ok false).
  cbn [bind]. rewrite IH. reflexivity.
Qed.

Lemma sort_unsubmitted {A} (l : list (value * A)) : forall acc,
  Forall (fun p => fst p = VStr "0.0") acc ->
  Forall (fun p => fst p = VStr "0.0") l ->
  sort_keyed acc l = Ok (acc ++ l)%list.
Proof.
  induction l as [|[k x] l IH]; intros acc Hacc Hl.
  - rewrite app_nil_r. reflexivity.
  - inversion Hl as [|? ? Hk Hrest]; subst. cbn [fst] in Hk. subst k.
    cbn [sort_keyed]. rewrite (insert_unsubmitted x acc Hacc). cbn [bind].
    rewrite IH; [rewrite <- app_assoc; reflexivity | | assumption].
    apply Forall_app. split; [assumption | repeat constructor].
Qed.

(** X9.  When no job of the batch has a submit time, every sort key is the
    same string, nothing is compared across types, and [create_job_dicts]
    returns the records in the order of the jobs. *)
Theorem unsubmitted_jobs_keep_order env qt jobs recs :
  Forall (fun job => get job "t_submit" = VNone) jobs ->
  map_result (job_record env qt) jobs = Ok recs ->
  create_job_dicts env qt jobs = Ok recs.
Proof.
  intros Hjobs Hmap. unfold create_job_dicts. rewrite Hmap. cbn [bind].
  destruct (sort_keys_of_records env qt jobs recs (map_result_ok _ _ _ Hmap))
    as [Hkeys _].
  assert (Hall : map submit_key jobs
                 = map (fun _ => VStr "0.0") jobs).
  { clear -Hjobs. induction Hjobs as [|job jobs Hj _ IH]; [reflexivity|].
    simpl. rewrite IH. unfold submit_key. rewrite Hj. reflexivity. }
  rewrite Hall in Hkeys.
  unfold sorted. rewrite Hkeys. cbn [bind].
  assert (Hlen : List.length jobs = List.length recs)
    by (eapply Forall2_length, map_result_ok; eassumption).
  rewrite sort_unsubmitted; [cbn [bind app] | constructor |].
  - f_equal. apply map_snd_combine. rewrite length_map. exact Hlen.
  - clear -Hlen. revert recs Hlen.
    induction jobs as [|j jobs IH]; intros [|r recs] Hlen; simpl;
      try constructor; try discriminate.
    + reflexivity.
    + apply IH. simpl in Hlen. congruence.
Qed.

(** Two jobs that were never submitted. *)
Definition unsubmitted_jobs : list dict :=
  [ [("id", VInt 21); ("name", VStr "b")];
    [("id", VInt 20); ("name", VStr "a")] ].

Definition unsubmitted_records : list value :=
  Eval vm_compute in
    match map_result (job_record example_env []) unsubmitted_jobs with
    | Ok recs => recs
    | Raise _ => []
    end.

Lemma unsubmitted_jobs_keep_order_witness :
  create_job_dicts example_env [] unsubmitted_jobs = Ok unsubmitted_records.
Proof.
  apply (unsubmitted_jobs_keep_order example_env [] unsubmitted_jobs
           unsubmitted_records).
  - repeat constructor.
  - vm_compute. reflexivity.
Defined.

(** X10.  When every job of the batch has a float other than NaN as its
    submit time, the records that [create_job_dicts] returns are in
    ascending order of [job.submittime_epoch]: no record has a smaller
    submit time than a record before it. *)
Theorem submitted_jobs_sorted env qt jobs recs :
  Forall (fun job => ordered_float (get job "t_submit")) jobs ->
  create_job_dicts env qt jobs = Ok recs ->
  StronglySorted submitted_before recs.
Proof. apply output_sorted_by_submit_time. Qed.

Lemma submitted_jobs_sorted_witness :
  StronglySorted submitted_before example_records.
Proof.
  apply (submitted_jobs_sorted example_env [] example_jobs example_records).
  - repeat constructor; eexists; (split; [reflexivity | discriminate]).
  - vm_compute. reflexivity.
Defined.

(** X11.  A batch in which one job has no submit time and another has one
    is not sorted at all: when every job is mapped, [create_job_dicts]
    raises the [TypeError] of comparing the default key, a string, with a
    number. *)
Theorem mixed_batch_raises env qt jobs recs a b :
  In a jobs -> In b jobs ->
  get a "t_submit" = VNone -> get b "t_submit" <> VNone ->
  map_result (job_record env qt) jobs = Ok recs ->
  create_job_dicts env qt jobs = Raise TypeError.
Proof. apply mixed_submit_times_raise. Qed.

Lemma mixed_batch_raises_witness :
  create_job_dicts example_env [] unsorted_jobs = Raise TypeError.
Proof.
  apply (mixed_batch_raises example_env [] unsorted_jobs unsorted_records
           (job_submitted 3 None) (job_submitted 4 (Some 20))).
  - simpl. auto.
  - simpl. auto.
  - reflexivity.
  - discriminate.
  - vm_compute. reflexivity.
Defined.

End Mapping.

(* ===================================================================== *)
(** * Further properties of a run *)
(* ===================================================================== *)

Module Fetch.
Import Py PyFacts Exporter ExporterFacts Fixtures Run.
Local Open Scope proc_scope.

(** ** The course of [fetch_new_jobs] *)

(** The timestamp that the query is made with: the argument, or what the
    file gives. *)
Definition effective_timestamp (w : World) (last_timestamp : value)
  : proc value :=
  if is_none last_timestamp then read_timestamp w else ret last_timestamp.

Definition connect_error : string :=
  "Could not connect to Flux instance; Flux may be down".

(** Every way through [fetch_new_jobs], in the order of the source. *)
Lemma fetch_cases w qt last :
  fetch_new_jobs w qt last
  = match connect w with
    | Some exc =>
        ([Syslog connect_error; Syslog ("exception message: " ++ exc)],
         Exits 0)
    | None =>
        match effective_timestamp w last with
        | (tr0, Exits n) => (tr0, Exits n)
        | (tr0, Raises e) => (tr0, Raises e)
        | (tr0, Returns ts) =>
            match config_get w with
            | None => (tr0, Exits 1)
            | Some qlist =>
                match get_method qlist "queues" (VDict []) with
                | Raise e => (tr0, Raises e)
                | Ok queue_info =>
                    match set_queue_limits queue_info qt with
                    | Raise e => (tr0, Raises e)
                    | Ok qt' =>
                        match inactive_jobs w ts with
                        | inl strerror =>
                            ((tr0 ++ [JobListInactive ts;
                                      Stderr ("rpc: " ++ strerror)])%list,
                             Exits 1)
                        | inr raw =>
                            match map_result (enrich w) raw with
                            | Raise e =>
                                ((tr0 ++ [JobListInactive ts])%list, Raises e)
                            | Ok jobs =>
                                ((tr0 ++ [JobListInactive ts])%list,
                                 Returns (qt', jobs))
                            end
                        end
                    end
                end
            end
        end
    end.
Proof.
  unfold fetch_new_jobs, effective_timestamp, connect_error, get_jobs.
  destruct (connect w); [reflexivity|].
  destruct (if is_none last then read_timestamp w else ret last)
    as [tr0 [ts|n|e]]; cbn [pbind]; try reflexivity.
  destruct (config_get w) as [qlist|];
    [|cbn; rewrite app_nil_r; reflexivity].
  destruct (get_method qlist "queues" (VDict [])) as [queue_info|e];
    cbn [lift pbind]; [|rewrite app_nil_r; reflexivity].
  destruct (set_queue_limits queue_info qt) as [qt'|e];
    cbn [lift pbind app]; [|rewrite app_nil_r; reflexivity].
  destruct (inactive_jobs w ts) as [strerror|raw];
    cbn [pbind emit sys_exit ret app]; [reflexivity|].
  rewrite for_each_lift.
  destruct (map_result (enrich w) raw) as [jobs|e];
    cbn [lift pbind ret app]; rewrite ?app_nil_r; reflexivity.
Qed.

(** When the timestamp is found, nothing has been logged for it. *)
Lemma effective_timestamp_returns w last tr0 ts :
  effective_timestamp w last = (tr0, Returns ts) -> tr0 = [].
Proof.
  unfold effective_timestamp, read_timestamp.
  destruct (is_none last); [|intros H; injection H as <- _; reflexivity].
  destruct (timestamp_file w); [| | |destruct (float_of_text w text)];
    cbn; intros H; try discriminate; injection H as <- _; reflexivity.
Qed.

(** Every way through [main]. *)
Lemma main_cases w since :
  main w since
  = match fetch_new_jobs w []
            match since with Some z => VInt z | None => VNone end with
    | (tr, Exits n) => (tr, Exits n)
    | (tr, Raises e) => (tr, Raises e)
    | (tr, Returns (qt, jobs)) =>
        match create_job_dicts (env w) qt jobs with
        | Raise e => (tr, Raises e)
        | Ok recs => ((tr ++ map Stdout recs)%list, Returns tt)
        end
    end.
Proof.
  unfold main.
  destruct (fetch_new_jobs w [] _) as [tr [[qt jobs]|n|e]];
    cbn [pbind]; try reflexivity.
  destruct (create_job_dicts (env w) qt jobs) as [recs|e];
    cbn [lift pbind app]; [|rewrite app_nil_r; reflexivity].
  assert (Hprint : for_each (fun job => emit (Stdout job)) recs
                   = (map Stdout recs, Returns (map (fun _ => tt) recs))).
  { induction recs as [|r recs IH]; [reflexivity|].
    cbn [for_each emit pbind]. rewrite IH.
    cbn [pbind ret app]. rewrite app_nil_r. reflexivity. }
  rewrite Hprint. cbn [pbind ret]. rewrite app_nil_r. reflexivity.
Qed.

Lemma printed_stdout recs : printed (map Stdout recs) = recs.
Proof. induction recs; simpl; congruence. Qed.

Lemma printed_app tr tr' :
  printed (tr ++ tr') = (printed tr ++ printed tr')%list.
Proof.
  induction tr as [|e tr IH]; simpl; [reflexivity|].
  destruct e; simpl; rewrite IH; reflexivity.
Qed.

(** The value of [args.since]. *)
Definition since_arg (since : option Z) : value :=
  match since with Some z => VInt z | None => VNone end.

(** ** Flux is down *)

(** X12.  When the connection to Flux fails, the run logs two lines, the
    second with the text of the exception, and exits with status 0,
    whatever [--since] and the timestamp file are; it makes no query and
    prints nothing. *)
Theorem flux_down_exits_zero w since exc :
  connect w = Some exc ->
  main w since
  = ([Syslog connect_error; Syslog ("exception message: " ++ exc)], Exits 0)
  /\ queried (trace (main w since)) = []
  /\ printed (trace (main w since)) = [].
Proof.
  intros Hconn.
  assert (H : main w since
              = ([Syslog connect_error;
                  Syslog ("exception message: " ++ exc)], Exits 0)).
  { rewrite main_cases, fetch_cases, Hconn. reflexivity. }
  rewrite H. repeat split.
Qed.

Lemma flux_down_exits_zero_witness :
  main (example_world (Content "not-a-number") (Some "timed out")) (Some 5)
  = ([Syslog connect_error; Syslog ("exception message: " ++ "timed out")],
     Exits 0)
  /\ queried (trace (main (example_world (Content "not-a-number")
                                         (Some "timed out")) (Some 5))) = []
  /\ printed (trace (main (example_world (Content "not-a-number")
                                         (Some "timed out")) (Some 5))) = [].
Proof.
  apply (flux_down_exits_zero
           (example_world (Content "not-a-number") (Some "timed out"))
           (Some 5) "timed out").
  reflexivity.
Defined.

(** ** The timestamp of the query *)

(** The same world with another timestamp file and another reading of
    floats. *)
Definition with_timestamp_file (w : World) (file : file_read)
  (parse : string -> option float) : World :=
  mk_world (env w) (connect w) file parse (config_get w) (inactive_jobs w)
           (job_kvs_lookup w).

(** The queries of a fetch are made with the effective timestamp. *)
Lemma fetch_queries w qt last ts tr o :
  effective_timestamp w last = ret ts ->
  fetch_new_jobs w qt last = (tr, o) ->
  (forall t, In t (queried tr) -> t = ts)
  /\ (forall qt' jobs, o = Returns (qt', jobs) ->
        tr = [JobListInactive ts]
        /\ exists raw, inactive_jobs w ts = inr raw
                       /\ map_result (enrich w) raw = Ok jobs).
Proof.
  intros Hts. rewrite fetch_cases, Hts. unfold ret.
  destruct (connect w);
    [intros H; injection H as <- <-; split;
     [simpl; contradiction | discriminate]|].
  destruct (config_get w) as [qlist|];
    [|intros H; injection H as <- <-; split;
      [simpl; contradiction | discriminate]].
  destruct (get_method qlist "queues" (VDict []));
    [|intros H; injection H as <- <-; split;
      [simpl; contradiction | discriminate]].
  destruct (set_queue_limits a qt);
    [|intros H; injection H as <- <-; split;
      [simpl; contradiction | discriminate]].
  destruct (inactive_jobs w ts) as [strerror|raw] eqn:Hraw.
  - intros H; injection H as <- <-; split;
      [simpl; intros t [<-|[]]; reflexivity | discriminate].
  - destruct (map_result (enrich w) raw) as [jobs|e] eqn:Hmap;
      intros H; injection H as <- <-; split;
      try (simpl; intros t [<-|[]]; reflexivity); try discriminate.
    intros qt' jobs' Heq. injection Heq as <- <-.
    split; [reflexivity|]. eauto.
Qed.

Lemma main_queries w since ts :
  effective_timestamp w (since_arg since) = ret ts ->
  forall t, In t (queried (trace (main w since))) -> t = ts.
Proof.
  intros Hts. rewrite main_queried. fold (since_arg since).
  destruct (fetch_new_jobs w [] (since_arg since)) as [tr o] eqn:Hfetch.
  exact (proj1 (fetch_queries w [] _ ts tr o Hts Hfetch)).
Qed.

(** X13.  With [--since], the timestamp file plays no part: the run is the
    same whatever the file holds, or whether it exists at all, and every
    query for inactive jobs is made with the integer given. *)
Theorem since_overrides_file w z :
  (forall file parse,
     main (with_timestamp_file w file parse) (Some z) = main w (Some z))
  /\ (forall t, In t (queried (trace (main w (Some z)))) -> t = VInt z).
Proof.
  split.
  - intros file parse. rewrite !main_cases, !fetch_cases.
    destruct w. reflexivity.
  - apply (main_queries _ (Some z)). reflexivity.
Qed.

Example since_overrides_file_example :
  main (example_world (Content "not-a-number") None) (Some 1700000100)
  = main (example_world FileNotFound None) (Some 1700000100)
  /\ queried (trace (main (example_world FileNotFound None)
                          (Some 1700000100)))
     = [VInt 1700000100].
Proof. split; vm_compute; reflexivity. Qed.

(** X14.  Without [--since], a timestamp file whose content parses as a
    float gives the timestamp of the query: every query of the run is made
    with that float, and a fetch that returns has made exactly that query
    and returns the jobs that the job list gives for it, each with its
    jobspec and eventlog attached. *)
Theorem checkpoint_sets_since w text f :
  timestamp_file w = Content text -> float_of_text w text = Some f ->
  (forall t, In t (queried (trace (main w None))) -> t = VFloat f)
  /\ (forall qt tr qt' jobs,
        fetch_new_jobs w qt VNone = (tr, Returns (qt', jobs)) ->
        tr = [JobListInactive (VFloat f)]
        /\ exists raw, inactive_jobs w (VFloat f) = inr raw
                       /\ map_result (enrich w) raw = Ok jobs).
Proof.
  intros Hfile Hparse.
  assert (Hts : effective_timestamp w VNone = ret (VFloat f)).
  { unfold effective_timestamp, read_timestamp. cbn [is_none].
    rewrite Hfile, Hparse. reflexivity. }
  split.
  - exact (main_queries w None _ Hts).
  - intros qt tr qt' jobs Hfetch.
    exact (proj2 (fetch_queries w qt _ _ tr _ Hts Hfetch) qt' jobs eq_refl).
Qed.

(** The file holds 1700000100.0 and a newline. *)
Definition checkpoint_text : string :=
  String.append "1700000100.0" (String (ascii_of_nat 10) EmptyString).

Lemma checkpoint_sets_since_witness :
  (forall t,
     In t (queried (trace (main (example_world (Content checkpoint_text) None)
                                None)))
     -> t = f64 1700000100 0)
  /\ (forall qt tr qt' jobs,
        fetch_new_jobs (example_world (Content checkpoint_text) None) qt VNone
        = (tr, Returns (qt', jobs)) ->
        tr = [JobListInactive (f64 1700000100 0)]
        /\ exists raw,
             inactive_jobs (example_world (Content checkpoint_text) None)
                           (f64 1700000100 0) = inr raw
             /\ map_result (enrich (example_world (Content checkpoint_text)
                                                  None)) raw
                = Ok jobs).
Proof.
  apply (checkpoint_sets_since (example_world (Content checkpoint_text) None)
           checkpoint_text).
  - reflexivity.
  - vm_compute. reflexivity.
Defined.

(** Since 1700000100.0 only the finished job became inactive. *)
Example run_after_checkpoint :
  jobs_since (f64 1700000100 0) = [finished_job]
  /\ printed (trace (main (example_world (Content checkpoint_text) None) None))
     = [enriched_record].
Proof. split; vm_compute; reflexivity. Qed.

(** X15.  Without [--since] and with Flux up, a timestamp file that cannot
    be read ends the run with status 1 and one logged line: the text of
    the exception after [an unexpected error occurred], or, when the file
    cannot be decoded, the line of the unparsable timestamp. *)
Theorem unreadable_checkpoint_aborts w :
  connect w = None ->
  (forall msg, timestamp_file w = ReadError msg ->
     main w None
     = ([Syslog ("an unexpected error occurred: " ++ msg)], Exits 1))
  /\ (timestamp_file w = Undecodable ->
      main w None = ([Syslog parse_error], Exits 1)).
Proof.
  intros Hconn. split; [intros msg Hfile | intros Hfile];
    rewrite main_cases, fetch_cases, Hconn;
    unfold effective_timestamp, read_timestamp; cbn [since_arg is_none];
    rewrite Hfile; reflexivity.
Qed.

Lemma unreadable_checkpoint_aborts_witness :
  (forall msg,
     timestamp_file (example_world (ReadError "Permission denied") None)
     = ReadError msg ->
     main (example_world (ReadError "Permission denied") None) None
     = ([Syslog ("an unexpected error occurred: " ++ msg)], Exits 1))
  /\ (timestamp_file (example_world (ReadError "Permission denied") None)
      = Undecodable ->
      main (example_world (ReadError "Permission denied") None) None
      = ([Syslog parse_error], Exits 1)).
Proof.
  apply (unreadable_checkpoint_aborts
           (example_world (ReadError "Permission denied") None)).
  reflexivity.
Defined.

(** ** Failures of the RPCs *)

(** X16.  When the timestamp is known and the [config.get] RPC fails, the
    run exits with status 1 without a word: nothing is logged, no query is
    made, nothing is printed. *)
Theorem config_failure_is_silent w since ts :
  connect w = None ->
  effective_timestamp w (since_arg since) = ret ts ->
  config_get w = None ->
  main w since = ([], Exits 1).
Proof.
  intros Hconn Hts Hconf.
  rewrite main_cases, fetch_cases, Hconn. fold (since_arg since).
  rewrite Hts. unfold ret. rewrite Hconf. reflexivity.
Qed.

(** A Flux instance that does not answer [config.get]. *)
Definition no_config_world : World :=
  mk_world example_env None FileNotFound ascii_float None
           (fun since => inr (jobs_since since)) example_kvs.

Lemma config_failure_is_silent_witness :
  main no_config_world None = ([], Exits 1).
Proof.
  apply (config_failure_is_silent no_config_world None zero); reflexivity.
Defined.

(** X17.  When the job list fails, the run has made its one query, prints
    [rpc: ] and the error text on standard error, and exits with status 1;
    it prints no record. *)
Theorem job_list_failure w since ts qlist queue_info qt strerror :
  connect w = None ->
  effective_timestamp w (since_arg since) = ret ts ->
  config_get w = Some qlist ->
  get_method qlist "queues" (VDict []) = Ok queue_info ->
  set_queue_limits queue_info [] = Ok qt ->
  inactive_jobs w ts = inl strerror ->
  main w since
  = ([JobListInactive ts; Stderr ("rpc: " ++ strerror)], Exits 1).
Proof.
  intros Hconn Hts Hconf Hqueues Hlimits Hjobs.
  rewrite main_cases, fetch_cases, Hconn. fold (since_arg since).
  rewrite Hts. unfold ret. rewrite Hconf, Hqueues, Hlimits, Hjobs.
  reflexivity.
Qed.

(** A Flux instance whose job list is not available. *)
Definition no_list_world : World :=
  mk_world example_env None FileNotFound ascii_float (Some example_config)
           (fun _ => inl "Function not implemented") example_kvs.

Lemma job_list_failure_witness :
  main no_list_world (Some 1700000000)
  = ([JobListInactive (VInt 1700000000);
      Stderr ("rpc: " ++ "Function not implemented")], Exits 1).
Proof.
  apply (job_list_failure no_list_world (Some 1700000000) (VInt 1700000000)
           example_config
           (VDict
              [("batch",
                VDict [("policy",
                        VDict [("limits",
                                VDict [("duration", VStr "8h")])])]);
               ("debug", VDict [])])
           [("batch", VStr "8h"); ("debug", VStr "UNKNOWN")]
           "Function not implemented"); reflexivity.
Defined.

(** ** Exit status *)



(** ** From the job list to the output *)

(** X19.  A run that returns has gone through every step: it found its
    timestamp, built the table of queue limits from the configuration,
    made one query with the timestamp, attached jobspec and eventlog to
    each job listed, mapped and sorted them with that table, and printed
    exactly the resulting records, in their order, after the query. *)
Theorem returning_run w since tr :
  main w since = (tr, Returns tt) ->
  exists ts qlist queue_info qt raw jobs recs,
    effective_timestamp w (since_arg since) = ret ts
    /\ config_get w = Some qlist
    /\ get_method qlist "queues" (VDict []) = Ok queue_info
    /\ set_queue_limits queue_info [] = Ok qt
    /\ inactive_jobs w ts = inr raw
    /\ map_result (enrich w) raw = Ok jobs
    /\ create_job_dicts (env w) qt jobs = Ok recs
    /\ tr = JobListInactive ts :: map Stdout recs
    /\ printed tr = recs.
Proof.
  rewrite main_cases, fetch_cases. fold (since_arg since).
  destruct (connect w); [discriminate|].
  destruct (effective_timestamp w (since_arg since)) as [tr0 [ts|n|e]] eqn:Hts;
    try discriminate.
  pose proof (effective_timestamp_returns _ _ _ _ Hts) as ->.
  destruct (config_get w) as [qlist|] eqn:Hconf; [|discriminate].
  destruct (get_method qlist "queues" (VDict [])) as [qi|] eqn:Hq;
    [|discriminate].
  destruct (set_queue_limits qi []) as [qt|] eqn:Hlim; [|discriminate].
  destruct (inactive_jobs w ts) as [s|raw] eqn:Hraw; [discriminate|].
  destruct (map_result (enrich w) raw) as [jobs|] eqn:Hjobs; [|discriminate].
  destruct (create_job_dicts (env w) qt jobs) as [recs|] eqn:Hrecs;
    [|discriminate].
  cbn [app]. intros H. injection H as <-.
  exists ts, qlist, qi, qt, raw, jobs, recs.
  repeat split; try assumption. cbn [printed]. apply printed_stdout.
Qed.

Lemma returning_run_witness :
  exists ts qlist queue_info qt raw jobs recs,
    effective_timestamp (example_world FileNotFound None) (since_arg None)
    = ret ts
    /\ config_get (example_world FileNotFound None) = Some qlist
    /\ get_method qlist "queues" (VDict []) = Ok queue_info
    /\ set_queue_limits queue_info [] = Ok qt
    /\ inactive_jobs (example_world FileNotFound None) ts = inr raw
    /\ map_result (enrich (example_world FileNotFound None)) raw = Ok jobs
    /\ create_job_dicts (env (example_world FileNotFound None)) qt jobs
       = Ok recs
    /\ trace (main (example_world FileNotFound None) None)
       = JobListInactive ts :: map Stdout recs
    /\ printed (trace (main (example_world FileNotFound None) None)) = recs.
Proof.
  apply (returning_run (example_world FileNotFound None) None
           (trace (main (example_world FileNotFound None) None))).
  vm_compute. reflexivity.
Defined.


(** A run stopped by a job with an unknown result code. *)
Definition bad_result_world : World :=
  mk_world example_env None FileNotFound ascii_float (Some example_config)
           (fun _ => inr [finished_job; unknown_result_job])
           (fun _ => Ok VNone).


Example run_with_bad_result :
  main bad_result_world None = ([JobListInactive zero], Raises KeyError).
Proof. vm_compute. reflexivity. Qed.

(** ** The table of queue limits *)

(** [details.get("policy", {}).get("limits", {}).get("duration",
    "UNKNOWN")] (line 107) *)
Definition queue_duration (details : value) : result value :=
  (p <- get_method details "policy" (VDict []) ;;
   l <- get_method p "limits" (VDict []) ;;
   get_method l "duration" (VStr "UNKNOWN"))%py.

Lemma queue_limits_spec items : forall qt qt',
  NoDup (map fst items) ->
  queue_limits items qt = Ok qt' ->
  (forall queue details, In (queue, details) items ->
     exists d, queue_duration details = Ok d /\ dict_get qt' queue = Some d)
  /\ (forall queue, ~ In queue (map fst items) ->
        dict_get qt' queue = dict_get qt queue).
Proof.
  induction items as [|[q details] items IH]; intros qt qt' Hnd H.
  - injection H as <-. split; [intros ? ? []|reflexivity].
  - cbn [queue_limits] in H.
    apply bind_ok in H. destruct H as (p & Hp & H).
    apply bind_ok in H. destruct H as (l & Hl & H).
    apply bind_ok in H. destruct H as (d & Hd & H).
    cbn [map fst] in Hnd. inversion Hnd as [|? ? Hq Hnd']; subst.
    destruct (IH _ _ Hnd' H) as [Hin Hout].
    assert (Hdur : queue_duration details = Ok d).
    { unfold queue_duration. rewrite Hp. cbn [bind]. rewrite Hl.
      cbn [bind]. exact Hd. }
    split.
    + intros queue det [Heq|Hin'].
      * injection Heq as <- <-. exists d. split; [exact Hdur|].
        rewrite (Hout q Hq). apply dict_get_set_same.
      * apply Hin. exact Hin'.
    + intros queue Hnot. cbn [map fst In] in Hnot.
      rewrite Hout by tauto.
      apply dict_get_set_other. apply String.eqb_neq. tauto.
Qed.

(** X21.  From the queues of the configuration, a dict with one entry for
    each queue, the table gets for every queue the duration that the
    queue's [policy.limits] gives, or the string UNKNOWN when the queue
    has no policy, no limits or no duration; the entries of other queues
    stay as they were.  A configuration without queues leaves the table
    unchanged, and queues that are neither empty nor a dict raise
    [AttributeError]. *)
Theorem queue_limits_table items qt qt' :
  NoDup (map fst items) ->
  set_queue_limits (VDict items) qt = Ok qt' ->
  (forall queue details, In (queue, details) items ->
     exists d, queue_duration details = Ok d /\ dict_get qt' queue = Some d)
  /\ (forall queue fields, In (queue, VDict fields) items ->
        dict_get fields "policy" = None ->
        dict_get qt' queue = Some (VStr "UNKNOWN"))
  /\ (forall queue, ~ In queue (map fst items) ->
        dict_get qt' queue = dict_get qt queue)
  /\ (forall v, truthy v = false -> set_queue_limits v qt = Ok qt)
  /\ (forall v, truthy v = true -> (forall d, v <> VDict d) ->
        set_queue_limits v qt = Raise AttributeError).
Proof.
  intros Hnd H.
  assert (Hloop : queue_limits items qt = Ok qt').
  { unfold set_queue_limits in H. destruct items; exact H. }
  destruct (queue_limits_spec items qt qt' Hnd Hloop) as [Hin Hout].
  split; [exact Hin|]. split; [|split; [exact Hout|split]].
  - intros queue fields Hq Hnone.
    destruct (Hin _ _ Hq) as (d & Hd & Hget).
    unfold queue_duration in Hd. cbn [get_method bind] in Hd.
    unfold get_default in Hd at 1. rewrite Hnone in Hd.
    cbn in Hd. injection Hd as <-. exact Hget.
  - intros v Hv. unfold set_queue_limits. rewrite Hv. reflexivity.
  - intros v Hv Hnd'. unfold set_queue_limits. rewrite Hv.
    destruct v; try reflexivity. exfalso. eapply Hnd'. reflexivity.
Qed.

Lemma queue_limits_table_witness :
  (forall queue details,
     In (queue, details)
        [("batch",
          VDict [("policy",
                  VDict [("limits", VDict [("duration", VStr "8h")])])]);
         ("debug", VDict [])] ->
     exists d,
       queue_duration details = Ok d
       /\ dict_get [("batch", VStr "8h"); ("debug", VStr "UNKNOWN")] queue
          = Some d)
  /\ (forall queue fields,
        In (queue, VDict fields)
           [("batch",
             VDict [("policy",
                     VDict [("limits", VDict [("duration", VStr "8h")])])]);
            ("debug", VDict [])] ->
        dict_get fields "policy" = None ->
        dict_get [("batch", VStr "8h"); ("debug", VStr "UNKNOWN")] queue
        = Some (VStr "UNKNOWN"))
  /\ (forall queue,
        ~ In queue (map fst
             [("batch",
               VDict [("policy",
                       VDict [("limits", VDict [("duration", VStr "8h")])])]);
              ("debug", VDict [])]) ->
        dict_get [("batch", VStr "8h"); ("debug", VStr "UNKNOWN")] queue
        = dict_get [] queue)
  /\ (forall v, truthy v = false -> set_queue_limits v [] = Ok [])
  /\ (forall v, truthy v = true -> (forall d, v <> VDict d) ->
        set_queue_limits v [] = Raise AttributeError).
Proof.
  apply (queue_limits_table
           [("batch",
             VDict [("policy",
                     VDict [("limits", VDict [("duration", VStr "8h")])])]);
            ("debug", VDict [])]
           [] [("batch", VStr "8h"); ("debug", VStr "UNKNOWN")]).
  - repeat constructor; simpl; intuition discriminate.
  - reflexivity.
Defined.

(** ** Attaching jobspec and eventlog *)

(** [jobspec.get("attributes", {}).get("system", {})] (lines 125, 128) *)
Definition jobspec_system (jobspec : value) : result value :=
  (a <- get_method jobspec "attributes" (VDict []) ;;
   get_method a "system" (VDict []))%py.

(** The attributes that the loop of lines 114-138 may write. *)
Definition enriched_keys : list string :=
  ["jobspec"; "duration"; "bank"; "queue"; "project"; "eventlog"].

Ltac dget :=
  repeat first [ rewrite dict_get_set_same
               | rewrite dict_get_set_other by reflexivity ].

Lemma getitem_of_get d k :
  get d k <> VNone -> getitem (VDict d) k = Ok (get d k).
Proof.
  unfold get, get_default. simpl.
  destruct (dict_get d k); [reflexivity | congruence].
Qed.

(** The job after the jobspec block, when the KVS has a jobspec. *)
Lemma enrich_steps w job id data job' :
  dict_get job "id" = Some id ->
  job_kvs_lookup w id = Ok (VDict data) ->
  enrich w job = Ok job' ->
  exists job1,
    (get data "jobspec" = VNone -> job1 = job)
    /\ (get data "jobspec" <> VNone ->
        exists sysd,
          jobspec_system (get data "jobspec") = Ok (VDict sysd)
          /\ job1
             = dict_set
                 (dict_set
                    (dict_set
                       (dict_set
                          (dict_set job "jobspec" (get data "jobspec"))
                          "duration" (get_default sysd "duration" (VDict [])))
                       "bank" (get sysd "bank"))
                    "queue" (get sysd "queue"))
                 "project" (get sysd "project"))
    /\ job' = (if not_none (get data "eventlog")
               then dict_set job1 "eventlog" (get data "eventlog")
               else job1).
Proof.
  intros Hid Hkvs H. unfold enrich in H.
  cbn [getitem] in H. rewrite Hid in H. cbn [Py.bind] in H.
  rewrite Hkvs in H. cbn [Py.bind not_none is_none negb get_method] in H.
  fold (get data "jobspec") in H. fold (get data "eventlog") in H.
  apply bind_ok in H. destruct H as (job1 & Hjob1 & H).
  exists job1. split; [|split].
  - intros Hn. rewrite Hn in Hjob1. cbn in Hjob1. congruence.
  - intros Hnn. pose proof Hnn as Hb. apply not_none_true in Hb.
    rewrite Hb in Hjob1.
    change (match dict_get data "jobspec" with
            | Some x => Ok x
            | None => Raise KeyError
            end) with (getitem (VDict data) "jobspec") in Hjob1.
    rewrite (getitem_of_get _ _ Hnn) in Hjob1. cbn [Py.bind] in Hjob1.
    apply bind_ok in Hjob1. destruct Hjob1 as (a & Ha & Hjob1).
    apply bind_ok in Hjob1. destruct Hjob1 as (sy & Hsy & Hjob1).
    apply bind_ok in Hjob1. destruct Hjob1 as (d & Hd & Hjob1).
    rewrite Ha in Hjob1. cbn [Py.bind] in Hjob1.
    rewrite Hsy in Hjob1. cbn [Py.bind] in Hjob1.
    destruct sy as [| | | | | |sysd]; try discriminate.
    exists sysd. split.
    + unfold jobspec_system. rewrite Ha. cbn [Py.bind]. exact Hsy.
    + cbn [get_method Py.bind] in Hjob1, Hd.
      injection Hd as <-. injection Hjob1 as <-. reflexivity.
  - destruct (not_none (get data "eventlog")); cbn in H; congruence.
Qed.

(** X22.  Attaching jobspec and eventlog changes no other attribute of a
    job: every key besides [jobspec], [duration], [bank], [queue],
    [project] and [eventlog] has after the loop body the value it had
    before; and a job for which the KVS lookup gives [None], or neither
    jobspec nor eventlog, is returned as it was. *)
Theorem enrich_keeps_attributes w job job' :
  enrich w job = Ok job' ->
  (forall key, ~ In key enriched_keys ->
     dict_get job' key = dict_get job key)
  /\ (forall id, dict_get job "id" = Some id ->
        job_kvs_lookup w id = Ok VNone -> job' = job)
  /\ (forall id data, dict_get job "id" = Some id ->
        job_kvs_lookup w id = Ok (VDict data) ->
        get data "jobspec" = VNone -> get data "eventlog" = VNone ->
        job' = job).
Proof.
  intros H.
  assert (Hid : exists id, dict_get job "id" = Some id).
  { unfold enrich in H. cbn [getitem] in H.
    destruct (dict_get job "id"); [eauto | discriminate]. }
  destruct Hid as [id Hid].
  assert (Hnone : job_kvs_lookup w id = Ok VNone -> job' = job).
  { intros Hkvs. unfold enrich in H. cbn [getitem] in H.
    rewrite Hid in H. cbn [Py.bind] in H. rewrite Hkvs in H.
    cbn in H. congruence. }
  split; [|split].
  - intros key Hkey.
    destruct (job_kvs_lookup w id) as [job_data|e] eqn:Hkvs.
    + destruct job_data;
        try (unfold enrich in H; cbn [getitem] in H; rewrite Hid in H;
             cbn [Py.bind] in H; rewrite Hkvs in H; discriminate).
      * rewrite Hnone; reflexivity.
      * destruct (enrich_steps w job id d job' Hid Hkvs H)
          as (job1 & Hn & Hs & ->).
        assert (Hneq : forall k, In k enriched_keys ->
                  String.eqb k key = false).
        { intros k Hk. apply String.eqb_neq. intros ->. tauto. }
        assert (H1 : dict_get job1 key = dict_get job key).
        { destruct (Mapping.not_none_dec (get d "jobspec")) as [E|E].
          - rewrite (Hn E). reflexivity.
          - destruct (Hs E) as (sysd & _ & ->).
            rewrite !dict_get_set_other; try reflexivity;
              apply Hneq; simpl; tauto. }
        destruct (not_none (get d "eventlog")); [|exact H1].
        rewrite dict_get_set_other; [exact H1|].
        apply Hneq; simpl; tauto.
    + unfold enrich in H. cbn [getitem] in H. rewrite Hid in H.
      cbn [Py.bind] in H. rewrite Hkvs in H. discriminate.
  - intros id' Hid' Hkvs. rewrite Hid in Hid'. injection Hid' as <-. auto.
  - intros id' data Hid' Hkvs Hjs Hev.
    rewrite Hid in Hid'. injection Hid' as <-.
    destruct (enrich_steps w job id data job' Hid Hkvs H)
      as (job1 & Hn & _ & ->).
    rewrite Hev. cbn. auto.
Qed.

(** [finished_job] with what the KVS of the sample instance has on it. *)
Definition enriched_job : dict :=
  Eval vm_compute in
    match enrich (example_world FileNotFound None) finished_job with
    | Ok job => job
    | Raise _ => []
    end.

Lemma enrich_keeps_attributes_witness :
  (forall key, ~ In key enriched_keys ->
     dict_get enriched_job key = dict_get finished_job key)
  /\ (forall id, dict_get finished_job "id" = Some id ->
        job_kvs_lookup (example_world FileNotFound None) id = Ok VNone ->
        enriched_job = finished_job)
  /\ (forall id data, dict_get finished_job "id" = Some id ->
        job_kvs_lookup (example_world FileNotFound None) id
        = Ok (VDict data) ->
        get data "jobspec" = VNone -> get data "eventlog" = VNone ->
        enriched_job = finished_job).
Proof.
  apply (enrich_keeps_attributes (example_world FileNotFound None)
           finished_job enriched_job).
  vm_compute. reflexivity.
Defined.

(** X23.  For a job whose KVS data has a jobspec, the loop body sets
    [jobspec] to it and takes [duration], [bank], [queue] and [project]
    from the [attributes.system] of the jobspec: a missing bank, queue or
    project becomes [None], a missing duration the empty dict; [eventlog]
    is set when the data has one and is left alone otherwise. *)
Theorem enrich_from_jobspec w job id data job' :
  dict_get job "id" = Some id ->
  job_kvs_lookup w id = Ok (VDict data) ->
  get data "jobspec" <> VNone ->
  enrich w job = Ok job' ->
  exists sysd,
    jobspec_system (get data "jobspec") = Ok (VDict sysd)
    /\ get job' "jobspec" = get data "jobspec"
    /\ get job' "duration" = get_default sysd "duration" (VDict [])
    /\ get job' "bank" = get sysd "bank"
    /\ get job' "queue" = get sysd "queue"
    /\ get job' "project" = get sysd "project"
    /\ get job' "eventlog"
       = (if not_none (get data "eventlog") then get data "eventlog"
          else get job "eventlog").
Proof.
  intros Hid Hkvs Hjs H.
  destruct (enrich_steps w job id data job' Hid Hkvs H)
    as (job1 & _ & Hs & ->).
  destruct (Hs Hjs) as (sysd & Hsys & ->).
  exists sysd. split; [exact Hsys|].
  destruct (not_none (get data "eventlog"));
    unfold get, get_default; dget; repeat split.
Qed.

(** A job as the job list gives it, before the KVS data is attached. *)
Lemma enrich_from_jobspec_witness :
  exists sysd,
    jobspec_system
      (VDict
         [("attributes",
           VDict [("system",
                   VDict [("duration", f64 3600 0);
                          ("bank", VStr "physics");
                          ("queue", VStr "batch")])])])
    = Ok (VDict sysd)
    /\ get enriched_job "jobspec"
       = VDict
           [("attributes",
             VDict [("system",
                     VDict [("duration", f64 3600 0);
                            ("bank", VStr "physics");
                            ("queue", VStr "batch")])])]
    /\ get enriched_job "duration" = get_default sysd "duration" (VDict [])
    /\ get enriched_job "bank" = get sysd "bank"
    /\ get enriched_job "queue" = get sysd "queue"
    /\ get enriched_job "project" = get sysd "project"
    /\ get enriched_job "eventlog"
       = VList [VDict [("name", VStr "submit")]].
Proof.
  apply (enrich_from_jobspec (example_world FileNotFound None) finished_job
           (VInt 7)
           [("id", VInt 7);
            ("jobspec",
             VDict
               [("attributes",
                 VDict [("system",
                         VDict [("duration", f64 3600 0);
                                ("bank", VStr "physics");
                                ("queue", VStr "batch")])])]);
            ("eventlog", VList [VDict [("name", VStr "submit")]])]
           enriched_job).
  - reflexivity.
  - reflexivity.
  - discriminate.
  - vm_compute. reflexivity.
Defined.

Example enriched_job_attributes :
  get enriched_job "bank" = VStr "physics"
  /\ get enriched_job "queue" = VStr "batch"
  /\ get enriched_job "project" = VNone
  /\ get enriched_job "duration" = f64 3600 0.
Proof. repeat split. Qed.

(** X24.  The loop body raises [KeyError] for a job without an [id], what
    the KVS lookup raises, and [AttributeError] for a jobspec that is
    neither [None] nor a dict: nothing in the guarded block raises the
    [JSONDecodeError] that the handler names, so the handler never
    runs. *)
Theorem enrich_errors w job :
  (dict_get job "id" = None -> enrich w job = Raise KeyError)
  /\ (forall id e, dict_get job "id" = Some id ->
        job_kvs_lookup w id = Raise e -> enrich w job = Raise e)
  /\ (forall id data, dict_get job "id" = Some id ->
        job_kvs_lookup w id = Ok (VDict data) ->
        get data "jobspec" <> VNone ->
        (forall d, get data "jobspec" <> VDict d) ->
        enrich w job = Raise AttributeError).
Proof.
  split; [|split].
  - intros Hid. unfold enrich. cbn [getitem]. rewrite Hid. reflexivity.
  - intros id e Hid Hkvs. unfold enrich. cbn [getitem]. rewrite Hid.
    cbn [Py.bind]. rewrite Hkvs. reflexivity.
  - intros id data Hid Hkvs Hnn Hnd. unfold enrich. cbn [getitem].
    rewrite Hid. cbn [Py.bind]. rewrite Hkvs.
    cbn [Py.bind not_none is_none negb get_method].
    fold (get data "jobspec").
    pose proof Hnn as Hb. apply not_none_true in Hb. rewrite Hb.
    change (match dict_get data "jobspec" with
            | Some x => Ok x
            | None => Raise KeyError
            end) with (getitem (VDict data) "jobspec").
    rewrite (getitem_of_get _ _ Hnn). cbn [Py.bind].
    destruct (get data "jobspec") as [| | | | | |d];
      try reflexivity; try congruence.
Qed.

(** X25.  An error while jobspec and eventlog are attached to one job
    stops the run: the exception leaves [main] after the query, no job of
    the list is mapped, and nothing is printed. *)
Theorem failed_enrichment_stops_run
  w since ts qlist queue_info qt raw job e :
  connect w = None ->
  effective_timestamp w (since_arg since) = ret ts ->
  config_get w = Some qlist ->
  get_method qlist "queues" (VDict []) = Ok queue_info ->
  set_queue_limits queue_info [] = Ok qt ->
  inactive_jobs w ts = inr raw ->
  In job raw ->
  enrich w job = Raise e ->
  exists e', main w since = ([JobListInactive ts], Raises e').
Proof.
  intros Hconn Hts Hconf Hqueues Hlimits Hraw Hin Hjob.
  destruct (map_result_raises _ _ _ _ Hin Hjob) as [e' He'].
  exists e'.
  rewrite main_cases, fetch_cases, Hconn. fold (since_arg since).
  rewrite Hts. unfold ret. rewrite Hconf, Hqueues, Hlimits, Hraw, He'.
  reflexivity.
Qed.

(** A Flux instance whose KVS holds a text where the jobspec of job 7
    should be. *)
Definition bad_jobspec_world : World :=
  mk_world example_env None FileNotFound ascii_float (Some (VDict []))
           (fun since => inr (jobs_since since))
           (fun id => if py_eq id (VInt 7)
                      then Ok (VDict [("jobspec", VStr "{")])
                      else Ok VNone).

Lemma failed_enrichment_stops_run_witness :
  exists e', main bad_jobspec_world None = ([JobListInactive zero], Raises e').
Proof.
  apply (failed_enrichment_stops_run bad_jobspec_world None zero (VDict [])
           (VDict []) [] example_jobs finished_job AttributeError).
  - reflexivity.
  - reflexivity.
  - reflexivity.
  - reflexivity.
  - reflexivity.
  - vm_compute. reflexivity.
  - simpl. auto.
  - vm_compute. reflexivity.
Defined.

End Fetch.
